(** * Video processing service: job lifecycle of [app.py]

    A shallow embedding of the job-orchestration code of the service
    ([save_task_status], [get_task_status], [send_webhook_notification],
    [process_video_task], [process_video]) over an explicit world: a file
    system keyed by paths, the Redis key space with expiry deadlines, a wall
    clock and the list of externally visible events a call emits.

    Everything the code does not decide itself is an oracle of the
    environment record [env]: whether a call to Redis gets through, what the
    ZIP decoder makes of a file's bytes, what the external script does to the
    file system, whether the operating system lets a removal through. *)

From stdpp Require Import gmap strings list fin_maps pretty.
From Stdlib Require Import ZArith Lia.

Open Scope Z_scope.

(** ** Python helpers *)

(** [str.endswith]: exact, case-sensitive comparison of the last characters. *)
Definition endswith (s suffix : string) : bool :=
  let n := String.length s in
  let k := String.length suffix in
  if (k <=? n)%nat then String.eqb (String.substring (n - k) k s) suffix
  else false.

(** [str.split(sep)] for a one-character separator. *)
Fixpoint split_on (sep : Ascii.ascii) (s : string) : list string :=
  match s with
  | EmptyString => [EmptyString]
  | String a rest =>
      if Ascii.eqb a sep then EmptyString :: split_on sep rest
      else match split_on sep rest with
           | h :: t => String a h :: t
           | [] => [String a EmptyString]
           end
  end.

(** [str(n)] for an integer. *)
Definition py_str (n : Z) : string := pretty n.

(** A path is the list of its components, relative to the directory the
    service runs in; [os.path.join dir name] appends one component. *)
Abbreviation path := (list string).

Definition path_join (dir : path) (name : string) : path := dir ++ [name].
Definition dirname (p : path) : path := removelast p.
Definition basename (p : path) : string := List.last p EmptyString.
Definition path_str (p : path) : string := String.concat "/" p.

(** [repr] of a list of names, as an f-string prints [os.listdir]'s result. *)
Definition py_repr_list (l : list string) : string :=
  "[" +:+ String.concat ", " ((λ s, "'" +:+ s +:+ "'") <$> l) +:+ "]".

(** ** config.py *)

Record Settings := {
  REDIS_URL : string;
  REDIS_PASSWORD : string;
  REDIS_DB : Z;
  REDIS_KEY_PREFIX : string;
  TEMP_DIR : path;
  OUTPUT_DIR : path;
  SCRIPT_PATH : path;
  FILE_RETENTION_HOURS : Z;
  API_KEY : string;
  WEBHOOK_URL : string
}.

Definition config : Settings := {|
  REDIS_URL := "redis://localhost:6379";
  REDIS_PASSWORD := "";
  REDIS_DB := 0;
  REDIS_KEY_PREFIX := "video_task:";
  TEMP_DIR := ["temp"];
  OUTPUT_DIR := ["output"];
  SCRIPT_PATH := ["process_all.sh"];
  FILE_RETENTION_HOURS := 1;
  API_KEY := "";
  WEBHOOK_URL := ""
|}.

(** ** The world *)

(** What a path holds: a regular file with its bytes and its execute
    permission, or a directory. *)
Inductive node :=
  | FileN (data : string) (executable : bool)
  | DirN.

(** JSON values of a status record; a timestamp stands for its
    [isoformat()] string. *)
Inductive jvalue :=
  | JStr (s : string)
  | JInt (n : Z)
  | JTime (t : Z).

Global Instance jvalue_eq_dec : EqDecision jvalue.
Proof. solve_decision. Defined.

Global Instance node_eq_dec : EqDecision node.
Proof. solve_decision. Defined.

(** The arguments [process_video] hands to [background_tasks.add_task]. *)
Record job := Job {
  job_task_id : string;
  job_zip_path : path;
  job_music_path : path;
  job_fade_duration : Z;
  job_work_dir : path
}.

(** A Redis value with its expiry deadline ([None]: no TTL set). *)
Record slot := Slot {
  slot_value : gmap string jvalue;
  slot_deadline : option Z
}.

Record world := World {
  fs : gmap path node;
  redis : gmap string slot;
  redis_calls : nat;
  clock : Z;
  uuids : nat;
  background : list job
}.

Definition with_fs (f : gmap path node) (w : world) : world :=
  World f (redis w) (redis_calls w) (clock w) (uuids w) (background w).
Definition with_redis (r : gmap string slot) (w : world) : world :=
  World (fs w) r (redis_calls w) (clock w) (uuids w) (background w).
Definition with_redis_calls (n : nat) (w : world) : world :=
  World (fs w) (redis w) n (clock w) (uuids w) (background w).
Definition with_clock (t : Z) (w : world) : world :=
  World (fs w) (redis w) (redis_calls w) t (uuids w) (background w).
Definition with_uuids (n : nat) (w : world) : world :=
  World (fs w) (redis w) (redis_calls w) (clock w) n (background w).
Definition with_background (b : list job) (w : world) : world :=
  World (fs w) (redis w) (redis_calls w) (clock w) (uuids w) b.

(** What an observer outside the process can see a call do. *)
Inductive event :=
  | EvSet (key : string) (value : gmap string jvalue) (persisted : bool)
  | EvSpawn (argv : list string) (cwd : path)
  | EvWebhook (payload : gmap string jvalue)
  | EvSchedule (file_path : path) (task_id : string) (hours : Z)
  | EvCleanup (task_id : string)
  | EvRmtree (p : path) (removed : bool)
  | EvRemove (p : path) (removed : bool).

(** ** Computations: state, exceptions, emitted events *)

Inductive outcome (A : Type) :=
  | Done (a : A)
  | Raised (e : string).
Arguments Done {A} a.
Arguments Raised {A} e.

Record run (A : Type) := Run {
  result : outcome A;
  final : world;
  emitted : list event
}.
Arguments Run {A} result final emitted.
Arguments result {A} r.
Arguments final {A} r.
Arguments emitted {A} r.

Definition M (A : Type) : Type := world → run A.

Definition ret {A} (a : A) : M A := λ w, Run (Done a) w [].

Definition raise {A} (e : string) : M A := λ w, Run (Raised e) w [].

Definition bind {A B} (m : M A) (k : A → M B) : M B := λ w,
  let r := m w in
  match result r with
  | Done a =>
      let r' := k a (final r) in
      Run (result r') (final r') (emitted r ++ emitted r')
  | Raised e => Run (Raised e) (final r) (emitted r)
  end.

(** [try: m except Exception as e: h e] *)
Definition try_except {A} (m : M A) (h : string → M A) : M A := λ w,
  let r := m w in
  match result r with
  | Done a => r
  | Raised e =>
      let r' := h e (final r) in
      Run (result r') (final r') (emitted r ++ emitted r')
  end.

(** [try: m finally: c]: [c] runs whatever [m] did; an exception of [m]
    goes on after [c] unless [c] raises itself. *)
Definition try_finally {A} (m : M A) (c : M unit) : M A := λ w,
  let r := m w in
  let r' := c (final r) in
  Run (match result r' with
       | Done _ => result r
       | Raised e => Raised e
       end) (final r') (emitted r ++ emitted r').

Definition emit (e : event) : M unit := λ w, Run (Done tt) w [e].

Declare Scope job_scope.
Delimit Scope job_scope with job.
Notation "'let*' x ':=' m 'in' k" := (bind m (λ x, k))
  (at level 10, x name, m at level 100, k at level 200) : job_scope.
Notation "m ';;' k" := (bind m (λ _, k))
  (at level 100, k at level 200, right associativity) : job_scope.

(** ** The file system

    A flat map from paths to what they hold. The directory the service runs
    in (the empty path) always exists. Operations fail the way the system
    calls behind them do; a failed operation leaves what it already did. *)

Definition lookup_path (f : gmap path node) (p : path) : option node :=
  match p with
  | [] => Some DirN
  | _ => f !! p
  end.

(** [os.path.exists], [os.path.isdir], [os.path.isfile] *)
Definition path_exists (f : gmap path node) (p : path) : bool :=
  match lookup_path f p with Some _ => true | None => false end.
Definition isdir (f : gmap path node) (p : path) : bool :=
  match lookup_path f p with Some DirN => true | _ => false end.
Definition isfile (f : gmap path node) (p : path) : bool :=
  match lookup_path f p with Some (FileN _ _) => true | _ => false end.

(** [os.access(p, os.X_OK)] *)
Definition access_x (f : gmap path node) (p : path) : bool :=
  match lookup_path f p with
  | Some (FileN _ x) => x
  | Some DirN => true
  | None => false
  end.

(** [under d p]: [p] is [d] or lies below it. *)
Definition under (d p : path) : bool := bool_decide (take (length d) p = d).

(** The name of [p] inside [d] when [p] is a direct child of [d]. *)
Definition child_of (d p : path) : option string :=
  match reverse p with
  | name :: rparent => if decide (reverse rparent = d) then Some name else None
  | [] => None
  end.

(** The names [os.listdir d] returns: the direct children of [d], files and
    directories alike, in the order the map enumerates them. *)
Definition children (f : gmap path node) (d : path) : list string :=
  omap (λ kv, child_of d kv.1) (map_to_list f).

Definition listdir (f : gmap path node) (d : path) : outcome (list string) :=
  if isdir f d then Done (children f d)
  else Raised ("[Errno 2] No such file or directory: " +:+ path_str d).

(** A file-system operation: the new file system, and the error if it raised. *)
Abbreviation fs_result := (gmap path node * option string)%type.

Definition mkdir (f : gmap path node) (p : path) : fs_result :=
  if path_exists f p then (f, Some ("[Errno 17] File exists: " +:+ path_str p))
  else if isdir f (dirname p) then (<[p := DirN]> f, None)
  else (f, Some ("[Errno 2] No such file or directory: " +:+ path_str p)).

(** The non-empty prefixes of a path, shortest first. *)
Definition prefixes (p : path) : list path := (λ n, take n p) <$> seq 1 (length p).

Fixpoint mkdir_each (f : gmap path node) (qs : list path) : fs_result :=
  match qs with
  | [] => (f, None)
  | q :: rest =>
      if path_exists f q then mkdir_each f rest
      else match mkdir f q with
           | (f', None) => mkdir_each f' rest
           | failed => failed
           end
  end.

(** [os.makedirs(p, exist_ok=True)] *)
Definition makedirs (f : gmap path node) (p : path) : fs_result :=
  match mkdir_each f (prefixes p) with
  | (f', None) =>
      if isdir f' p then (f', None)
      else (f', Some ("[Errno 17] File exists: " +:+ path_str p))
  | failed => failed
  end.

(** [open(p, 'wb')] followed by a write of [data]: creates or truncates. *)
Definition open_wb (f : gmap path node) (p : path) (data : string) : fs_result :=
  match lookup_path f p with
  | Some DirN => (f, Some ("[Errno 21] Is a directory: " +:+ path_str p))
  | Some (FileN _ x) => (<[p := FileN data x]> f, None)
  | None =>
      if isdir f (dirname p) then (<[p := FileN data false]> f, None)
      else (f, Some ("[Errno 2] No such file or directory: " +:+ path_str p))
  end.

(** [os.path.getsize]: a directory reports the size of its inode. *)
Definition getsize (f : gmap path node) (p : path) : outcome Z :=
  match lookup_path f p with
  | Some (FileN data _) => Done (Z.of_nat (String.length data))
  | Some DirN => Done 4096
  | None => Raised ("[Errno 2] No such file or directory: " +:+ path_str p)
  end.

(** Everything at or below [src] re-rooted at [dst]. *)
Definition rekey (src dst : path) (f : gmap path node) : gmap path node :=
  list_to_map ((λ kv, (dst ++ drop (length src) kv.1, kv.2)) <$>
               map_to_list (filter (λ kv, under src kv.1 = true) f)).

(** [os.rename] *)
Definition rename (f : gmap path node) (src dst : path) : fs_result :=
  match lookup_path f src with
  | None => (f, Some ("[Errno 2] No such file or directory: " +:+ path_str src))
  | Some n =>
      if negb (isdir f (dirname dst)) then
        (f, Some ("[Errno 2] No such file or directory: " +:+ path_str dst))
      else if isdir f dst && isfile f src then
        (f, Some ("[Errno 21] Is a directory: " +:+ path_str dst))
      else if isfile f dst && isdir f src then
        (f, Some ("[Errno 20] Not a directory: " +:+ path_str dst))
      else
        (rekey src dst f ∪
           filter (λ kv, under src kv.1 = false ∧ under dst kv.1 = false) f, None)
  end.

(** [shutil.move]: into [dst] when [dst] is a directory, onto it otherwise. *)
Definition move (f : gmap path node) (src dst : path) : fs_result :=
  if isdir f dst then
    let real_dst := path_join dst (basename src) in
    if path_exists f real_dst then
      (f, Some ("Destination path '" +:+ path_str real_dst +:+ "' already exists"))
    else rename f src real_dst
  else rename f src dst.

(** ** The environment *)

(** The bytes read from a pipe of the child process: text, or bytes that
    [bytes.decode()] rejects. *)
Inductive captured :=
  | Utf8 (s : string)
  | NotUtf8.

(** What [asyncio.create_subprocess_exec] followed by [communicate] gives:
    the spawn fails, or the program runs, changes files as it likes and
    exits after some seconds. *)
Inductive spawn_result :=
  | SpawnError (msg : string)
  | Exited (fs' : gmap path node) (returncode : Z) (stdout stderr : captured)
           (seconds : nat).

(** A member of a ZIP archive: its name as stored (components separated by
    a slash, a trailing slash for a directory) and its bytes. *)
Record zip_entry := ZipEntry {
  zname : string;
  zdata : string
}.

Record env := Env {
  (** does the n-th command sent to Redis get through *)
  redis_up : nat → bool;
  (** the central directory [zipfile.ZipFile] reads from a file's bytes;
      [None] for bytes that are no archive *)
  unzip : string → option (list zip_entry);
  (** the external program, given its argv, its working directory and the
      files it finds *)
  script : list string → path → gmap path node → spawn_result;
  (** does the operating system refuse to remove this tree / this file *)
  rmtree_denied : gmap path node → path → bool;
  remove_denied : gmap path node → path → bool;
  (** the identifiers [uuid.uuid4()] produces, in order *)
  uuid4 : nat → string;
  (** [int(s)] on a string; [None] when it raises [ValueError] *)
  int_of : string → option Z;
  (** [os.getcwd()] *)
  getcwd : path
}.

(** ** zipfile.ZipFile.extractall *)

(** The target of a member below the extraction directory: empty, [.] and
    [..] components are dropped. *)
Definition arcname (name : string) : path :=
  filter (λ x : string, x ≠ "" ∧ x ≠ "." ∧ x ≠ "..") (split_on (Ascii.ascii_of_nat 47) name).

Definition is_dir (m : zip_entry) : bool := endswith (zname m) "/".

(** [ZipFile.getinfo]: of several members with one name, the last. *)
Definition getinfo (entries : list zip_entry) (name : string) : option zip_entry :=
  last (filter (λ m, zname m = name) entries).

Definition extract_member (f : gmap path node) (targetdir : path) (m : zip_entry)
  : fs_result :=
  let arc := arcname (zname m) in
  if bool_decide (arc = []) && negb (is_dir m) then (f, Some "Empty filename.")
  else
    let targetpath := targetdir ++ arc in
    let upperdirs := dirname targetpath in
    match (if bool_decide (upperdirs ≠ []) && negb (path_exists f upperdirs)
           then makedirs f upperdirs else (f, None)) with
    | (f1, None) =>
        if is_dir m then
          if isdir f1 targetpath then (f1, None) else mkdir f1 targetpath
        else open_wb f1 targetpath (zdata m)
    | failed => failed
    end.

(** [for name in self.namelist(): self._extract_member(name, path)] *)
Fixpoint extract_each (entries : list zip_entry) (targetdir : path)
    (names : list string) (f : gmap path node) : fs_result :=
  match names with
  | [] => (f, None)
  | name :: rest =>
      match getinfo entries name with
      | None => (f, Some ("There is no item named " +:+ name +:+ " in the archive"))
      | Some m =>
          match extract_member f targetdir m with
          | (f', None) => extract_each entries targetdir rest f'
          | failed => failed
          end
      end
  end.

Definition extract_entries (entries : list zip_entry) (targetdir : path)
    (f : gmap path node) : fs_result :=
  extract_each entries targetdir (zname <$> entries) f.

(** [shutil.rmtree] and [os.remove] on a file system, the refusal given. *)
Definition rmtree (denied : bool) (f : gmap path node) (p : path) : fs_result :=
  match p with
  | [] => (f, Some "[Errno 16] Device or resource busy: .")
  | _ =>
      if negb (isdir f p) then (f, Some ("[Errno 20] Not a directory: " +:+ path_str p))
      else if denied then (f, Some ("[Errno 13] Permission denied: " +:+ path_str p))
      else (filter (λ kv, under p kv.1 = false) f, None)
  end.

Definition remove (denied : bool) (f : gmap path node) (p : path) : fs_result :=
  if negb (isfile f p) then (f, Some ("[Errno 2] No such file or directory: " +:+ path_str p))
  else if denied then (f, Some ("[Errno 13] Permission denied: " +:+ path_str p))
  else (delete p f, None).

(** ** The request of [POST /process-video] *)

(** An uploaded file of a multipart form. *)
Record upload := Upload {
  filename : option string;
  content : string
}.

(** A form field holds text or an upload. *)
Inductive form_value :=
  | FText (s : string)
  | FFile (u : upload).

(** The three fields the handler reads; [None] where the form has no such
    key. *)
Record form := Form {
  form_video : option form_value;
  form_audio : option form_value;
  form_fade_duration : option form_value
}.

(** What the caller gets back: the 202 response with the job id, or an
    [HTTPException]. *)
Inductive response :=
  | Accepted (task_id : string)
  | HTTPException (status_code : Z) (detail : string).

(** ** app.py *)

Section App.

Variable cfg : Settings.
Variable E : env.

Open Scope job_scope.

(** *** Lifting the world's operations *)

Definition fs_op (op : gmap path node → fs_result) : M unit := λ w,
  let r := op (fs w) in
  Run (match r.2 with None => Done tt | Some e => Raised e end) (with_fs r.1 w) [].

Definition os_path_exists (p : path) : M bool := λ w,
  Run (Done (path_exists (fs w) p)) w [].

Definition os_access_x (p : path) : M bool := λ w,
  Run (Done (access_x (fs w) p)) w [].

Definition os_listdir (d : path) : M (list string) := λ w,
  Run (listdir (fs w) d) w [].

Definition os_path_getsize (p : path) : M Z := λ w,
  Run (getsize (fs w) p) w [].

(** [os.path.abspath], as the string handed to the child process. *)
Definition abspath (p : path) : string := "/" +:+ path_str (getcwd E ++ p).

(** [datetime.now()] *)
Definition now : M Z := λ w, Run (Done (clock w)) w [].

Definition sleep (seconds : Z) : M unit := λ w,
  Run (Done tt) (with_clock (clock w + Z.max 0 seconds) w) [].

(** [with zipfile.ZipFile(zip_path, 'r') as zip_ref: zip_ref.extractall(work_dir)] *)
Definition unpack (f : gmap path node) (zip_path work_dir : path) : fs_result :=
  match lookup_path f zip_path with
  | Some (FileN bytes _) =>
      match unzip E bytes with
      | Some entries => extract_entries entries work_dir f
      | None => (f, Some "File is not a zip file")
      end
  | Some DirN => (f, Some ("[Errno 21] Is a directory: " +:+ path_str zip_path))
  | None => (f, Some ("[Errno 2] No such file or directory: " +:+ path_str zip_path))
  end.

Definition extractall (zip_path work_dir : path) : M unit :=
  fs_op (λ f, unpack f zip_path work_dir).

Definition shutil_rmtree (p : path) : M unit := λ w,
  let r := rmtree (rmtree_denied E (fs w) p) (fs w) p in
  Run (match r.2 with None => Done tt | Some e => Raised e end) (with_fs r.1 w)
      [EvRmtree p (bool_decide (r.2 = None))].

Definition os_remove (p : path) : M unit := λ w,
  let r := remove (remove_denied E (fs w) p) (fs w) p in
  Run (match r.2 with None => Done tt | Some e => Raised e end) (with_fs r.1 w)
      [EvRemove p (bool_decide (r.2 = None))].

(** [bytes.decode()] and the truth value of a bytes object. *)
Definition decode (c : captured) : M string :=
  match c with
  | Utf8 s => ret s
  | NotUtf8 => raise "'utf-8' codec can't decode byte: invalid start byte"
  end.

Definition nonempty (c : captured) : bool :=
  match c with
  | Utf8 EmptyString => false
  | _ => true
  end.

(** [asyncio.create_subprocess_exec] with [cwd=cwd] and captured pipes, and
    [process.communicate()]: return code, stdout, stderr. *)
Definition create_subprocess_exec (argv : list string) (cwd : path)
  : M (Z * captured * captured) := λ w,
  match script E argv cwd (fs w) with
  | SpawnError msg => Run (Raised msg) w [EvSpawn argv cwd]
  | Exited f' rc out err seconds =>
      Run (Done (rc, out, err))
          (with_clock (clock w + Z.of_nat seconds) (with_fs f' w))
          [EvSpawn argv cwd]
  end.

(** *** Redis *)

(** An entry is there until its deadline. *)
Definition live (t : Z) (s : slot) : bool :=
  match slot_deadline s with
  | Some d => t <? d
  | None => true
  end.

(** [SET key value]: stores the value and drops any TTL the key had. *)
Definition redis_set (key : string) (value : gmap string jvalue) : M unit := λ w,
  let w' := with_redis_calls (S (redis_calls w)) w in
  if redis_up E (redis_calls w) then
    Run (Done tt) (with_redis (<[key := Slot value None]> (redis w)) w')
        [EvSet key value true]
  else Run (Raised "Error connecting to Redis") w' [EvSet key value false].

(** [EXPIRE key seconds] *)
Definition redis_expire (key : string) (seconds : Z) : M unit := λ w,
  let w' := with_redis_calls (S (redis_calls w)) w in
  if redis_up E (redis_calls w) then
    match redis w !! key with
    | Some s =>
        if live (clock w) s then
          Run (Done tt)
              (with_redis (<[key := Slot (slot_value s) (Some (clock w + seconds))]> (redis w)) w')
              []
        else Run (Done tt) w' []
    | None => Run (Done tt) w' []
    end
  else Run (Raised "Error connecting to Redis") w' [].

(** [GET key] *)
Definition redis_get (key : string) : M (option (gmap string jvalue)) := λ w,
  let w' := with_redis_calls (S (redis_calls w)) w in
  if redis_up E (redis_calls w) then
    match redis w !! key with
    | Some s => Run (Done (if live (clock w) s then Some (slot_value s) else None)) w' []
    | None => Run (Done None) w' []
    end
  else Run (Raised "Error connecting to Redis") w' [].

Definition get_redis_key (task_id : string) : string :=
  REDIS_KEY_PREFIX cfg +:+ task_id.

(** The dictionary [save_task_status] builds: the keyword arguments are
    spliced in last and win over the three fixed keys. *)
Definition task_record (task_id status : string) (created_at : Z)
    (kwargs : gmap string jvalue) : gmap string jvalue :=
  kwargs ∪ list_to_map [("task_id", JStr task_id); ("status", JStr status);
                         ("created_at", JTime created_at)].

Definition ttl_seconds : Z := (FILE_RETENTION_HOURS cfg + 1) * 3600.

Definition save_task_status (task_id status : string) (kwargs : gmap string jvalue)
  : M unit :=
  let* t := now in
  let task_data := task_record task_id status t kwargs in
  let key := get_redis_key task_id in
  redis_set key task_data;;
  redis_expire key ttl_seconds.

Definition get_task_status (task_id : string) : M (option (gmap string jvalue)) :=
  let key := get_redis_key task_id in
  redis_get key.

(** The POST goes out when a URL is configured; whatever comes back, a
    reply, a timeout or an error, is printed and dropped. *)
Definition send_webhook_notification (task_data : gmap string jvalue) : M unit :=
  if bool_decide (WEBHOOK_URL cfg = "") then ret tt
  else emit (EvWebhook task_data).

Definition delete_file_after_delay (file_path : path) (task_id : string) (hours : Z)
  : M unit :=
  try_except
    (sleep (hours * 3600);;
     let* there := os_path_exists file_path in
     if there then os_remove file_path else ret tt)
    (λ _, ret tt).

(** [asyncio.create_task(delete_file_after_delay(...))]: the coroutine is
    handed to the event loop and runs on its own later. *)
Definition create_task_delete (file_path : path) (task_id : string) (hours : Z)
  : M unit :=
  emit (EvSchedule file_path task_id hours).

(** *** process_video_task *)

Definition kw (l : list (string * jvalue)) : gmap string jvalue := list_to_map l.

(** The [finally] block. *)
Definition cleanup (task_id : string) (zip_path work_dir : path) : M unit :=
  emit (EvCleanup task_id);;
  let* work_there := os_path_exists work_dir in
  (if work_there then try_except (shutil_rmtree work_dir) (λ _, ret tt) else ret tt);;
  let* zip_there := os_path_exists zip_path in
  (if zip_there then try_except (os_remove zip_path) (λ _, ret tt) else ret tt).

(** The [except Exception as e] block. *)
Definition on_exception (task_id : string) (e : string) : M unit :=
  save_task_status task_id "failed"
    (kw [("error", JStr e);
         ("details", JStr ("Traceback (most recent call last): " +:+ e))]).

(** Lines 284-327: the result is there. *)
Definition finalize (task_id : string) (work_dir result_path : path) : M unit :=
  let output_path := path_join (OUTPUT_DIR cfg) (task_id +:+ ".mp4") in
  fs_op (λ f, move f result_path output_path);;
  let* file_size := os_path_getsize output_path in
  let* t := now in
  let expires_at := t + FILE_RETENTION_HOURS cfg * 3600 in
  let* completed := now in
  let task_data := kw [("task_id", JStr task_id);
                       ("status", JStr "success");
                       ("message", JStr "Обработка завершена");
                       ("output_file", JStr (task_id +:+ ".mp4"));
                       ("file_size", JInt file_size);
                       ("expires_at", JTime expires_at);
                       ("completed_at", JTime completed)] in
  let* completed' := now in
  save_task_status task_id "success"
    (kw [("message", JStr "Обработка завершена");
         ("output_file", JStr (task_id +:+ ".mp4"));
         ("file_size", JInt file_size);
         ("expires_at", JTime expires_at);
         ("completed_at", JTime completed')]);;
  send_webhook_notification task_data;;
  create_task_delete output_path task_id (FILE_RETENTION_HOURS cfg).

(** Lines 205-282: the script is checked, run and its outcome judged. *)
Definition execute (task_id : string) (music_path : path) (fade_duration : Z)
    (work_dir : path) (num_files : nat) : M unit :=
  let script_path := SCRIPT_PATH cfg in
  let* script_there := os_path_exists script_path in
  if negb script_there then
    save_task_status task_id "failed"
      (kw [("error", JStr ("Скрипт не найден: " +:+ abspath script_path))])
  else
  let* runnable := os_access_x script_path in
  if negb runnable then
    save_task_status task_id "failed"
      (kw [("error", JStr ("Скрипт не имеет прав на выполнение: " +:+ abspath script_path))])
  else
  let result_path := path_join work_dir "result.mp4" in
  let abs_music_path := abspath music_path in
  let* proc := create_subprocess_exec
                 [abspath script_path; py_str (Z.of_nat num_files); abs_music_path;
                  py_str fade_duration] work_dir in
  let '(returncode, stdout, stderr) := proc in
  (if nonempty stdout then (decode stdout;; ret tt) else ret tt);;
  (if nonempty stderr then (decode stderr;; ret tt) else ret tt);;
  if negb (returncode =? 0) then
    let* error_msg := (if nonempty stderr then decode stderr
                       else ret "Неизвестная ошибка") in
    save_task_status task_id "failed"
      (kw [("error", JStr ("Ошибка обработки (код " +:+ py_str returncode +:+ "): "
                           +:+ error_msg))])
  else
  let* result_there := os_path_exists result_path in
  if negb result_there then
    let* files_in_workdir := os_listdir work_dir in
    save_task_status task_id "failed"
      (kw [("error", JStr ("Результирующий файл не создан. Файлы в папке: "
                           +:+ py_repr_list files_in_workdir))])
  else finalize task_id work_dir result_path.

(** The names counted as inputs: [f for f in all_files if f.endswith('.mp4')].
    The code sorts them before it takes the length, which the length does
    not see. *)
Definition mp4_files (all_files : list string) : list string :=
  List.filter (λ f, endswith f ".mp4") all_files.

(** Lines 138-327: the [try] block. *)
Definition process_body (task_id : string) (zip_path music_path : path)
    (fade_duration : Z) (work_dir : path) : M unit :=
  save_task_status task_id "processing" (kw [("message", JStr "Распаковка архива...")]);;
  let* zip_there := os_path_exists zip_path in
  if negb zip_there then
    save_task_status task_id "failed"
      (kw [("error", JStr ("ZIP файл не найден: " +:+ path_str zip_path))])
  else
  let* unpacked := try_except (extractall zip_path work_dir;; ret None)
                              (λ e, ret (Some e)) in
  match unpacked with
  | Some e =>
      save_task_status task_id "failed"
        (kw [("error", JStr ("Ошибка распаковки архива: " +:+ e))])
  | None =>
  let* all_files := os_listdir work_dir in
  let num_files := length (mp4_files all_files) in
  if bool_decide (num_files = 0%nat) then
    save_task_status task_id "failed"
      (kw [("error", JStr "В архиве не найдено .mp4 файлов")])
  else
  let* music_there := os_path_exists music_path in
  if negb music_there then
    save_task_status task_id "failed"
      (kw [("error", JStr ("Музыкальный файл не найден: " +:+ path_str music_path))])
  else
  save_task_status task_id "processing"
    (kw [("message", JStr ("Обработка " +:+ py_str (Z.of_nat num_files)
                           +:+ " видео файлов..."))]);;
  execute task_id music_path fade_duration work_dir num_files
  end.

Definition process_video_task (task_id : string) (zip_path music_path : path)
    (fade_duration : Z) (work_dir : path) : M unit :=
  try_finally
    (try_except (process_body task_id zip_path music_path fade_duration work_dir)
                (on_exception task_id))
    (cleanup task_id zip_path work_dir).

(** *** process_video *)

(** What the two [print] lines and the [if not ...] tests see of a file
    field: nothing for a missing key or an empty string, the upload for a
    file; a non-empty string has no [filename] and raises. *)
Definition peek (v : option form_value) : M (option upload) :=
  match v with
  | None => ret None
  | Some (FText EmptyString) => ret None
  | Some (FText _) => raise "'str' object has no attribute 'filename'"
  | Some (FFile u) => ret (Some u)
  end.

Definition filename_endswith (u : upload) (suffix : string) : M bool :=
  match filename u with
  | Some name => ret (endswith name suffix)
  | None => raise "'NoneType' object has no attribute 'endswith'"
  end.

(** [try: fade_duration = int(fade_duration) except: fade_duration = 3] *)
Definition convert_fade (v : form_value) : Z :=
  match v with
  | FText s => match int_of E s with Some n => n | None => 3 end
  | FFile _ => 3
  end.

Definition uuid_uuid4 : M string := λ w,
  Run (Done (uuid4 E (uuids w))) (with_uuids (S (uuids w)) w) [].

Definition add_task (j : job) : M unit := λ w,
  Run (Done tt) (with_background (background w ++ [j]) w) [].

(** Lines 429-482: the request passed the checks. A job id is drawn, the
    working directory made, the archive and the music written, the status
    persisted and the background task queued. *)
Definition enqueue (video_archive background_music : upload) (fade_duration : Z)
  : M response :=
  let* task_id := uuid_uuid4 in
  let work_dir := path_join (TEMP_DIR cfg) task_id in
  fs_op (λ f, makedirs f work_dir);;
  let zip_path := path_join (TEMP_DIR cfg) (task_id +:+ ".zip") in
  fs_op (λ f, open_wb f zip_path (content video_archive));;
  let music_path := path_join work_dir "music.mp3" in
  fs_op (λ f, open_wb f music_path (content background_music));;
  save_task_status task_id "pending" (kw [("message", JStr "Задача создана")]);;
  add_task (Job task_id zip_path music_path fade_duration work_dir);;
  ret (Accepted task_id).

Definition process_video (request : form) : M response :=
  try_except
    (let fade_duration := default (FText "3") (form_fade_duration request) in
     let* video_archive := peek (form_video request) in
     let* background_music := peek (form_audio request) in
     match video_archive with
     | None => ret (HTTPException 400 "Не загружен файл video")
     | Some video_archive =>
     match background_music with
     | None => ret (HTTPException 400 "Не загружен файл audio")
     | Some background_music =>
     let* is_zip := filename_endswith video_archive ".zip" in
     if negb is_zip then
       ret (HTTPException 400 "Файл video должен быть ZIP архивом")
     else
     let* is_mp3 := filename_endswith background_music ".mp3" in
     if negb is_mp3 then
       ret (HTTPException 400 "Файл audio должен быть в формате MP3")
     else
     let fade_duration := convert_fade fade_duration in
     if (fade_duration <? 0) || (10 <? fade_duration) then
       ret (HTTPException 400 "Длительность затухания должна быть от 0 до 10 секунд")
     else enqueue video_archive background_music fade_duration
     end
     end)
    (λ e, ret (HTTPException 500 ("Ошибка создания задачи: " +:+ e))).

(** The background task of a queued job. *)
Definition run_job (j : job) : M unit :=
  process_video_task (job_task_id j) (job_zip_path j) (job_music_path j)
                     (job_fade_duration j) (job_work_dir j).

End App.

(** ** Reading the events of a run *)

Definition status_is (st : string) (v : gmap string jvalue) : bool :=
  bool_decide (v !! "status" = Some (JStr st)).

(** A record whose status is [success] or [failed]. *)
Definition terminal (v : gmap string jvalue) : bool :=
  status_is "success" v || status_is "failed" v.

(** A write of a terminal status, attempted; and one that reached Redis. *)
Definition is_terminal_write (e : event) : bool :=
  match e with
  | EvSet _ v _ => terminal v
  | _ => false
  end.

Definition is_persisted_terminal_write (e : event) : bool :=
  match e with
  | EvSet _ v true => terminal v
  | _ => false
  end.

Definition terminal_writes (l : list event) : nat :=
  length (List.filter is_terminal_write l).

Definition persisted_terminal_writes (l : list event) : nat :=
  length (List.filter is_persisted_terminal_write l).

Definition is_success_write (e : event) : bool :=
  match e with
  | EvSet _ v true => status_is "success" v
  | _ => false
  end.

Definition is_failed_write (e : event) : bool :=
  match e with
  | EvSet _ v _ => status_is "failed" v
  | _ => false
  end.

Definition is_spawn (e : event) : bool :=
  match e with
  | EvSpawn _ _ => true
  | _ => false
  end.

(** The webhook call and the scheduling of the deferred deletion. *)
Definition is_notice (e : event) : bool :=
  match e with
  | EvWebhook _ | EvSchedule _ _ _ => true
  | _ => false
  end.

(** What the [finally] block emits. *)
Definition is_cleanup (e : event) : bool :=
  match e with
  | EvCleanup _ | EvRmtree _ _ | EvRemove _ _ => true
  | _ => false
  end.

(** A removal that was tried and did not go through. *)
Definition is_failed_removal (e : event) : bool :=
  match e with
  | EvRmtree _ false | EvRemove _ false => true
  | _ => false
  end.

(** Every command sent to Redis gets through. *)
Definition reliable (E : env) : Prop := ∀ n, redis_up E n = true.

(** What the [try] block emits on its way to a verdict: status writes that
    are not terminal, and the start of the script. *)
Definition quiet (e : event) : bool :=
  match e with
  | EvSet _ v _ => negb (terminal v)
  | EvSpawn _ _ => true
  | _ => false
  end.

(** The four ways the [try] block of [process_video_task] can end, read off
    its events: a [failed] verdict written and returned; a [success] verdict
    written, followed by the webhook call and the scheduling; an exception
    from anything but Redis; an exception from the status write itself. *)
Inductive body_shape (E : env) (key : string) : outcome unit → list event → Prop :=
  | shape_failed pre v :
      Forall (λ e, quiet e = true) pre → status_is "failed" v = true →
      body_shape E key (Done tt) (pre ++ [EvSet key v true])
  | shape_success pre v notes :
      Forall (λ e, quiet e = true) pre → status_is "success" v = true →
      Forall (λ e, is_notice e = true) notes → notes ≠ [] →
      body_shape E key (Done tt) (pre ++ EvSet key v true :: notes)
  | shape_raised pre e :
      Forall (λ e, quiet e = true) pre →
      body_shape E key (Raised e) pre
  | shape_store_raised pre e v b :
      ¬ reliable E → Forall (λ e, quiet e = true) pre →
      body_shape E key (Raised e) (pre ++ [EvSet key v b]).

(** A step of the [try] block that is followed by more: it emits quiet
    events, unless it is a status write that Redis refused. *)
Definition quiet_step (E : env) (key : string) {A} (m : M A) : Prop := ∀ w,
  match result (m w) with
  | Done _ => Forall (λ e, quiet e = true) (emitted (m w))
  | Raised _ =>
      Forall (λ e, quiet e = true) (emitted (m w)) ∨
      (¬ reliable E ∧ ∃ pre v b, emitted (m w) = pre ++ [EvSet key v b] ∧
                                 Forall (λ e, quiet e = true) pre)
  end.

Definition shaped (E : env) (key : string) (m : M unit) : Prop :=
  ∀ w, body_shape E key (result (m w)) (emitted (m w)).

(** A computation that emits nothing. *)
Definition silent {A} (m : M A) : Prop := ∀ w, emitted (m w) = [].

(** [preceded p q l]: no [q]-event comes before the first [p]-event, so
    every [q]-event of [l] has a [p]-event before it. *)
Fixpoint preceded (p q : event → bool) (l : list event) : bool :=
  match l with
  | [] => true
  | e :: l' => if p e then true else negb (q e) && preceded p q l'
  end.

(** [never_after p q l]: no [q]-event comes after the first [p]-event. *)
Fixpoint never_after (p q : event → bool) (l : list event) : bool :=
  match l with
  | [] => true
  | e :: l' => if p e then forallb (λ x, negb (q x)) l' else never_after p q l'
  end.

(** The value stored under a key, expired or not. *)
Definition stored (w : world) (key : string) : option (gmap string jvalue) :=
  slot_value <$> redis w !! key.

(** ** A concrete installation, for examples *)

Module Demo.

(** Archives, named by the bytes that stand for them. *)
Definition decoder (bytes : string) : option (list zip_entry) :=
  if String.eqb bytes "PK:two-clips" then
    Some [ZipEntry "001.mp4" "clip one"; ZipEntry "002.mp4" "clip two"]
  else if String.eqb bytes "PK:nested" then
    Some [ZipEntry "clips/" ""; ZipEntry "clips/001.mp4" "clip one"]
  else if String.eqb bytes "PK:mp4-directory" then
    Some [ZipEntry "clips.mp4/" ""; ZipEntry "clips.mp4/readme.txt" "hello"]
  else if String.eqb bytes "PK:upper-case" then
    Some [ZipEntry "001.MP4" "clip one"]
  else if String.eqb bytes "PK:with-music" then
    Some [ZipEntry "001.mp4" "clip one"; ZipEntry "music.mp3" "another tune"]
  else None.

(** A script that writes [result.mp4] into its working directory. *)
Definition render (argv : list string) (cwd : path) (f : gmap path node)
  : spawn_result :=
  Exited (<[path_join cwd "result.mp4" := FileN "rendered" false]> f)
         0 (Utf8 "done") (Utf8 "") 5.

(** A script that exits with 0 and writes nothing. *)
Definition idle (argv : list string) (cwd : path) (f : gmap path node)
  : spawn_result :=
  Exited f 0 (Utf8 "") (Utf8 "") 1.

(** A script that fails with a message on its error stream. *)
Definition broken (argv : list string) (cwd : path) (f : gmap path node)
  : spawn_result :=
  Exited f 1 (Utf8 "") (Utf8 "disk full") 1.

(** [int] on plain decimal numerals with an optional sign. *)
Definition digit (a : Ascii.ascii) : option Z :=
  let n := Ascii.nat_of_ascii a in
  if (48 <=? n)%nat && (n <=? 57)%nat then Some (Z.of_nat (n - 48)) else None.

Fixpoint digits (s : string) (acc : Z) : option Z :=
  match s with
  | EmptyString => Some acc
  | String a rest =>
      match digit a with
      | Some d => digits rest (10 * acc + d)
      | None => None
      end
  end.

Definition decimal (s : string) : option Z :=
  match s with
  | EmptyString => None
  | String a rest =>
      if (Ascii.nat_of_ascii a =? 45)%nat then
        (if String.eqb rest "" then None else Z.opp <$> digits rest 0)
      else if (Ascii.nat_of_ascii a =? 43)%nat then
        (if String.eqb rest "" then None else digits rest 0)
      else digits s 0
  end.

Definition installation (up : nat → bool)
    (program : list string → path → gmap path node → spawn_result)
    (removal_denied : bool) : env :=
  Env up decoder program (λ _ _, removal_denied) (λ _ _, removal_denied)
      (λ n, "job-" +:+ pretty n) decimal ["srv"].

Definition always_up : nat → bool := λ _, true.

(** Redis answers the first two commands and is gone afterwards. *)
Definition up_for_two : nat → bool := λ n, (n <? 2)%nat.

(** The configuration with a webhook endpoint. *)
Definition with_webhook : Settings := {|
  REDIS_URL := REDIS_URL config;
  REDIS_PASSWORD := REDIS_PASSWORD config;
  REDIS_DB := REDIS_DB config;
  REDIS_KEY_PREFIX := REDIS_KEY_PREFIX config;
  TEMP_DIR := TEMP_DIR config;
  OUTPUT_DIR := OUTPUT_DIR config;
  SCRIPT_PATH := SCRIPT_PATH config;
  FILE_RETENTION_HOURS := FILE_RETENTION_HOURS config;
  API_KEY := API_KEY config;
  WEBHOOK_URL := "http://hooks.example/done"
|}.

(** The directories of a fresh installation and the script. *)
Definition disk : gmap path node :=
  list_to_map [(["temp"], DirN); (["output"], DirN);
               (["process_all.sh"], FileN "#!/bin/sh" true)].

Definition boot : world := World disk ∅ 0 100 0 [].

(** The world right after a job [job-0] was staged with the given archive
    bytes and the music [tune]. *)
Definition staged (archive : string) : world :=
  World (<[["temp"; "job-0"; "music.mp3"] := FileN "tune" false]>
           (<[["temp"; "job-0.zip"] := FileN archive false]>
              (<[["temp"; "job-0"] := DirN]> disk)))
        ∅ 0 100 1 [].

Definition job0 : job :=
  Job "job-0" ["temp"; "job-0.zip"] ["temp"; "job-0"; "music.mp3"] 3 ["temp"; "job-0"].

(** A well-formed upload of an archive and a tune. *)
Definition submission (archive : string) (fade : option form_value) : form :=
  Form (Some (FFile (Upload (Some "clips.zip") archive)))
       (Some (FFile (Upload (Some "tune.mp3") "tune")))
       fade.

End Demo.

(** A field of the record stored under a key. *)
Definition field (w : world) (key name : string) : option jvalue :=
  match stored w key with
  | Some v => v !! name
  | None => None
  end.

(** The world a status write leaves when Redis takes both commands. *)
Definition after_save (cfg : Settings) (task_id status : string)
    (kwargs : gmap string jvalue) (w : world) : world :=
  World (fs w)
        (<[get_redis_key cfg task_id :=
             Slot (task_record task_id status (clock w) kwargs)
                  (Some (clock w + ttl_seconds cfg))]> (redis w))
        (S (S (redis_calls w))) (clock w) (uuids w) (background w).

(** What the script must be told about the inputs: how many, the music,
    the fade. *)
Definition spawn_args_ok (cfg : Settings) (E : env) (music_path : path)
    (fade_duration : Z) (work_dir : path) (num_files : nat) (e : event) : Prop :=
  match e with
  | EvSpawn argv cwd =>
      argv = [abspath E (SCRIPT_PATH cfg); py_str (Z.of_nat num_files);
              abspath E music_path; py_str fade_duration] ∧ cwd = work_dir
  | _ => True
  end.

(** The detail of the rejection of a fade duration out of range. *)
Definition fade_msg : string :=
  "Длительность затухания должна быть от 0 до 10 секунд".

(** The fade duration the handler takes from a form. *)
Definition fade_of (E : env) (request : form) : Z :=
  convert_fade E (default (FText "3") (form_fade_duration request)).

(** The bytes a file directly inside the extraction directory holds once
    the members called [names] are extracted in turn, when it held [d]
    before: each member that lands on it replaces them. *)
Definition overwritten (entries : list zip_entry) (name : string)
    (names : list string) (d : string) : string :=
  foldl (λ d n, match getinfo entries n with
                | Some m => if decide (arcname (zname m) = [name]) then zdata m else d
                | None => d
                end) d names.

(** ** The other handlers of app.py *)

(** What a handler answers: a value, or an [HTTPException] (for the root
    page, the 404 response it builds itself). *)
Inductive reply (A : Type) :=
  | Served (a : A)
  | Refused (status_code : Z) (detail : string).
Arguments Served {A} a.
Arguments Refused {A} status_code detail.

(** [FileResponse(path, media_type=..., filename=...)] *)
Record file_response := FileResponse {
  resp_path : path;
  resp_media_type : string;
  resp_filename : string
}.

(** The bytes a [FileResponse] sends from a world, when its path is a
    regular file there. *)
Definition resp_body (w : world) (r : file_response) : option string :=
  match lookup_path (fs w) (resp_path r) with
  | Some (FileN data _) => Some data
  | _ => None
  end.

(** The dictionary [health_check] returns. *)
Record health := Health {
  health_status : string;
  health_redis : string;
  health_script_exists : bool;
  health_api_key_required : bool;
  health_webhook_configured : bool
}.

(** A JSON value inside an f-string; a timestamp prints as the string it
    stands for. *)
Definition show_json (v : jvalue) : string :=
  match v with
  | JStr s => s
  | JInt n => py_str n
  | JTime t => "T" +:+ py_str t
  end.

Section Handlers.

Variable cfg : Settings.
Variable E : env.

Open Scope job_scope.

(** [verify_api_key]: the value of the [X-API-Key] header, [None] when the
    request has none. *)
Definition verify_api_key (api_key : option string) : reply bool :=
  if bool_decide (API_KEY cfg = "") then Served true
  else match api_key with
       | None | Some EmptyString =>
           Refused 401 "API ключ не предоставлен. Используйте заголовок X-API-Key"
       | Some key =>
           if bool_decide (key ≠ API_KEY cfg) then Refused 403 "Неверный API ключ"
           else Served true
       end.

(** [startup_event]: the Redis client is built without sending a command;
    the two directories are made. *)
Definition startup_event : M unit :=
  fs_op (λ f, makedirs f (TEMP_DIR cfg));;
  fs_op (λ f, makedirs f (OUTPUT_DIR cfg)).

(** [if not task_data]: no record, or an empty dictionary. *)
Definition no_task (task_data : option (gmap string jvalue)) : bool :=
  match task_data with
  | Some v => bool_decide (v = ∅)
  | None => true
  end.

Definition get_task_status_endpoint (task_id : string)
  : M (reply (gmap string jvalue)) :=
  let* task_data := get_task_status cfg E task_id in
  if no_task task_data then ret (Refused 404 "Задача не найдена")
  else ret (Served (default ∅ task_data)).

Definition download_result (task_id : string) : M (reply file_response) :=
  let* task_data := get_task_status cfg E task_id in
  if no_task task_data then ret (Refused 404 "Задача не найдена")
  else
  match default ∅ task_data !! "status" with
  | None => raise "'status'"
  | Some status =>
      if bool_decide (status ≠ JStr "success") then
        ret (Refused 400 ("Файл недоступен. Статус задачи: " +:+ show_json status))
      else
      let output_file := path_join (OUTPUT_DIR cfg) (task_id +:+ ".mp4") in
      let* there := os_path_exists output_file in
      if negb there then ret (Refused 404 "Файл не найден или удалён")
      else ret (Served (FileResponse output_file "video/mp4"
                                     ("result_" +:+ task_id +:+ ".mp4")))
  end.

(** [PING] *)
Definition redis_ping : M unit := λ w,
  let w' := with_redis_calls (S (redis_calls w)) w in
  if redis_up E (redis_calls w) then Run (Done tt) w' []
  else Run (Raised "Error connecting to Redis") w' [].

Definition health_check : M health :=
  let* redis_status := try_except (redis_ping;; ret "ok") (λ _, ret "error") in
  let* script_exists := os_path_exists (SCRIPT_PATH cfg) in
  ret (Health "ok" redis_status script_exists
              (negb (bool_decide (API_KEY cfg = "")))
              (negb (bool_decide (WEBHOOK_URL cfg = "")))).

(** [root]: the page [index.html] of the directory the service runs in. *)
Definition root : M (reply string) := λ w,
  match fs w !! ["index.html"] with
  | Some (FileN data _) => Run (Done (Served data)) w []
  | Some DirN => Run (Raised "[Errno 21] Is a directory: index.html") w []
  | None => Run (Done (Refused 404 "<h1>index.html not found</h1>")) w []
  end.

End Handlers.

(** A computation that, when it returns, leaves a terminal status stored
    under the job's key. *)
Definition ends_terminal (cfg : Settings) (task_id : string) (m : M unit) : Prop :=
  ∀ w, result (m w) = Done tt →
       ∃ v, stored (final (m w)) (get_redis_key cfg task_id) = Some v ∧
            terminal v = true.

(** A write of a status that is not terminal. *)
Definition is_progress_write (e : event) : bool :=
  match e with
  | EvSet _ v _ => negb (terminal v)
  | _ => false
  end.

(** * Properties *)

(** ** Removing files *)

Lemma under_refl p : under p p = true.
Proof. unfold under. apply bool_decide_eq_true. by rewrite firstn_all. Qed.

Lemma rmtree_gone denied f p f' :
  rmtree denied f p = (f', None) → path_exists f' p = false.
Proof.
  unfold rmtree. destruct p as [|c p]; [done|].
  destruct (isdir f (c :: p)); [|done]. destruct denied; [done|].
  cbn [negb]. intros [= <-]. unfold path_exists, lookup_path.
  rewrite map_lookup_filter_None_2; [done|].
  right. intros x _. cbn [fst]. by rewrite under_refl.
Qed.

Lemma remove_gone denied f p f' :
  remove denied f p = (f', None) → path_exists f' p = false.
Proof.
  unfold remove. destruct (isfile f p) eqn:Hf; [|done]. destruct denied; [done|].
  cbn [negb]. intros [= <-]. destruct p as [|c p]; [done|].
  unfold path_exists, lookup_path. by rewrite lookup_delete_eq.
Qed.

Lemma remove_keeps_absent denied f p f' e q :
  remove denied f p = (f', e) → path_exists f q = false → path_exists f' q = false.
Proof.
  unfold remove. destruct (isfile f p); [|by intros [= <- <-]].
  destruct denied; [by intros [= <- <-]|].
  cbn [negb]. intros [= <- <-]. unfold path_exists, lookup_path.
  destruct q as [|c q]; [done|].
  destruct (decide (p = c :: q)) as [->|];
    [by rewrite lookup_delete_eq|by rewrite lookup_delete_ne].
Qed.

(** ** Running computations *)

Lemma bind_done {A B} (m : M A) (k : A → M B) w a w' ev :
  m w = Run (Done a) w' ev →
  bind m k w = Run (result (k a w')) (final (k a w')) (ev ++ emitted (k a w')).
Proof. unfold bind. by intros ->. Qed.

Lemma bind_raised {A B} (m : M A) (k : A → M B) w e w' ev :
  m w = Run (Raised e) w' ev → bind m k w = Run (Raised e) w' ev.
Proof. unfold bind. by intros ->. Qed.

Tactic Notation "world_simpl" :=
  cbn [result final emitted fs redis redis_calls clock uuids background
       with_fs with_redis with_redis_calls with_clock with_uuids with_background
       fst snd app].
Tactic Notation "world_simpl" "in" hyp(H) :=
  cbn [result final emitted fs redis redis_calls clock uuids background
       with_fs with_redis with_redis_calls with_clock with_uuids with_background
       fst snd app] in H.

Section Store.

Variables (cfg : Settings) (E : env).

Lemma task_record_status task_id st t (kws : gmap string jvalue) :
  kws !! "status" = None →
  task_record task_id st t kws !! "status" = Some (JStr st).
Proof. intros Hk. unfold task_record. by rewrite lookup_union_r. Qed.

Lemma task_record_created_at task_id st t (kws : gmap string jvalue) :
  kws !! "created_at" = None →
  task_record task_id st t kws !! "created_at" = Some (JTime t).
Proof. intros Hk. unfold task_record. by rewrite lookup_union_r. Qed.

Lemma task_record_kwarg task_id st t (kws : gmap string jvalue) k v :
  kws !! k = Some v → task_record task_id st t kws !! k = Some v.
Proof. intros Hk. unfold task_record. by apply lookup_union_Some_l. Qed.

(** A status write that gets through both commands: one event, the record
    under the job's key with a fresh deadline, nothing else touched. *)
Lemma save_task_status_up task_id st kws w :
  redis_up E (redis_calls w) = true →
  redis_up E (S (redis_calls w)) = true →
  save_task_status cfg E task_id st kws w =
    Run (Done tt)
        (World (fs w)
               (<[get_redis_key cfg task_id :=
                    Slot (task_record task_id st (clock w) kws)
                         (Some (clock w + ttl_seconds cfg))]> (redis w))
               (S (S (redis_calls w))) (clock w) (uuids w) (background w))
        [EvSet (get_redis_key cfg task_id) (task_record task_id st (clock w) kws) true].
Proof.
  intros H1 H2. unfold save_task_status, bind, now, redis_set, redis_expire.
  world_simpl. rewrite H1. world_simpl. rewrite H2.
  rewrite lookup_insert_eq. unfold live. cbn [slot_deadline slot_value].
  world_simpl. unfold with_redis, with_redis_calls. world_simpl.
  by rewrite insert_insert_eq.
Qed.

(** Whatever Redis does, a status write emits exactly one event and leaves
    files, clock, identifiers and queue alone; it raises only when a command
    did not get through. *)
Lemma save_task_status_cases task_id st kws w :
  let r := save_task_status cfg E task_id st kws w in
  let v := task_record task_id st (clock w) kws in
  fs (final r) = fs w ∧ clock (final r) = clock w ∧
  uuids (final r) = uuids w ∧ background (final r) = background w ∧
  ((result r = Done tt ∧ emitted r = [EvSet (get_redis_key cfg task_id) v true] ∧
    stored (final r) (get_redis_key cfg task_id) = Some v) ∨
   (∃ e b, result r = Raised e ∧
           emitted r = [EvSet (get_redis_key cfg task_id) v b] ∧ ¬ reliable E)).
Proof.
  unfold save_task_status, bind, now, redis_set, redis_expire, stored.
  world_simpl.
  destruct (redis_up E (redis_calls w)) eqn:H1; world_simpl.
  - destruct (redis_up E (S (redis_calls w))) eqn:H2; world_simpl.
    + rewrite lookup_insert_eq. unfold live. cbn [slot_deadline slot_value].
      world_simpl. rewrite lookup_insert_eq. split_and!; try done. by left.
    + split_and!; try done. right. eexists _, _. split_and!; try done.
      intros Hr. by rewrite Hr in H2.
  - split_and!; try done. right. eexists _, _. split_and!; try done.
    intros Hr. by rewrite Hr in H1.
Qed.

(** The [finally] block never raises, touches nothing but files, and leaves
    a path behind only if its removal was tried and failed. *)
Lemma cleanup_spec task_id zip_path work_dir w :
  let r := cleanup E task_id zip_path work_dir w in
  result r = Done tt ∧
  redis (final r) = redis w ∧
  (∃ rest, emitted r = EvCleanup task_id :: rest ∧
     Forall (λ e, is_cleanup e = true) rest) ∧
  (EvRmtree work_dir false ∉ emitted r → path_exists (fs (final r)) work_dir = false) ∧
  (EvRemove zip_path false ∉ emitted r → path_exists (fs (final r)) zip_path = false).
Proof.
  unfold cleanup, bind, try_except, emit, os_path_exists, shutil_rmtree, os_remove, ret.
  world_simpl.
  destruct (path_exists (fs w) work_dir) eqn:Hw; world_simpl.
  - destruct (rmtree _ _ _) as [f1 [e1|]] eqn:Hrm; world_simpl.
    all: destruct (path_exists f1 zip_path) eqn:Hz; world_simpl.
    all: try (destruct (remove _ _ _) as [f2 [e2|]] eqn:Hre; world_simpl).
    all: split_and!; [done|done|eexists; split; [done|]; repeat constructor|..].
    all: rewrite ?(bool_decide_eq_false_2 (Some _ = None)) by done.
    all: rewrite ?(bool_decide_eq_true_2 (None = None)) by done.
    all: try (intros Hno; exfalso; apply Hno; rewrite !elem_of_cons; tauto).
    all: intros _; eauto using rmtree_gone, remove_gone, remove_keeps_absent.
  - destruct (path_exists (fs w) zip_path) eqn:Hz; world_simpl.
    all: try (destruct (remove _ _ _) as [f2 [e2|]] eqn:Hre; world_simpl).
    all: split_and!; [done|done|eexists; split; [done|]; repeat constructor|..].
    all: rewrite ?(bool_decide_eq_false_2 (Some _ = None)) by done.
    all: rewrite ?(bool_decide_eq_true_2 (None = None)) by done.
    all: try (intros Hno; exfalso; apply Hno; rewrite !elem_of_cons; tauto).
    all: intros _; eauto using rmtree_gone, remove_gone, remove_keeps_absent.
Qed.

End Store.

(** ** The shape of a run's events *)

Section Shape.

Variables (cfg : Settings) (E : env) (task_id : string).

Abbreviation key := (get_redis_key cfg task_id).

Lemma shape_prefix pre r evs :
  Forall (λ e, quiet e = true) pre →
  body_shape E key r evs → body_shape E key r (pre ++ evs).
Proof.
  intros Hpre Hs. destruct Hs.
  - rewrite app_assoc. constructor; [by apply Forall_app|done].
  - rewrite app_assoc. constructor; [by apply Forall_app|done..].
  - constructor. by apply Forall_app.
  - rewrite app_assoc. constructor; [done|by apply Forall_app].
Qed.

Lemma shaped_bind {A} (m : M A) (k : A → M unit) :
  quiet_step E key m → (∀ a, shaped E key (k a)) → shaped E key (bind m k).
Proof.
  intros Hm Hk w. specialize (Hm w). unfold bind.
  destruct (result (m w)) as [a|e]; world_simpl.
  - apply shape_prefix; [done|]. apply Hk.
  - destruct Hm as [Hq|(Hn & pre & v & b & -> & Hq)]; by constructor.
Qed.

Lemma silent_quiet {A} (m : M A) : silent m → quiet_step E key m.
Proof.
  intros Hm w. rewrite (Hm w). destruct (result (m w)); [|left]; constructor.
Qed.

Lemma silent_bind {A B} (m : M A) (k : A → M B) :
  silent m → (∀ a, silent (k a)) → silent (bind m k).
Proof.
  intros Hm Hk w. unfold bind. specialize (Hm w).
  destruct (result (m w)); world_simpl; [|done].
  by rewrite Hm, Hk.
Qed.

Lemma silent_try_except {A} (m : M A) (h : string → M A) :
  silent m → (∀ e, silent (h e)) → silent (try_except m h).
Proof.
  intros Hm Hh w. unfold try_except. specialize (Hm w).
  destruct (result (m w)); world_simpl; [done|].
  by rewrite Hm, Hh.
Qed.

Lemma silent_decode c : silent (decode c).
Proof. by destruct c. Qed.

Lemma quiet_save_processing kws :
  kws !! "status" = None →
  quiet_step E key (save_task_status cfg E task_id "processing" kws).
Proof.
  intros Hk w.
  destruct (save_task_status_cases cfg E task_id "processing" kws w)
    as (_ & _ & _ & _ & [(-> & -> & _)|(e & b & -> & -> & Hn)]).
  - repeat constructor. unfold quiet, terminal, status_is.
    by rewrite task_record_status.
  - right. split; [done|]. eexists [], _, _. split; [reflexivity|constructor].
Qed.

Lemma shaped_save_failed kws :
  kws !! "status" = None →
  shaped E key (save_task_status cfg E task_id "failed" kws).
Proof.
  intros Hk w.
  destruct (save_task_status_cases cfg E task_id "failed" kws w)
    as (_ & _ & _ & _ & [(-> & -> & _)|(e & b & -> & -> & Hn)]).
  - apply (shape_failed E key []); [constructor|].
    unfold status_is. by rewrite task_record_status.
  - by apply (shape_store_raised E key []).
Qed.

Lemma quiet_spawn argv cwd : quiet_step E key (create_subprocess_exec E argv cwd).
Proof.
  intros w. unfold create_subprocess_exec.
  destruct (script E argv cwd (fs w)); world_simpl; [left|]; by repeat constructor.
Qed.

Lemma shaped_finalize work_dir result_path :
  shaped E key (finalize cfg E task_id work_dir result_path).
Proof.
  unfold finalize.
  apply shaped_bind; [by apply silent_quiet|intros _].
  apply shaped_bind; [by apply silent_quiet|intros file_size].
  apply shaped_bind; [by apply silent_quiet|intros t].
  apply shaped_bind; [by apply silent_quiet|intros completed].
  apply shaped_bind; [by apply silent_quiet|intros completed'].
  intros w.
  match goal with |- context [save_task_status _ _ _ _ ?k] =>
    pose proof (save_task_status_cases cfg E task_id "success" k w) as Hc;
    cbv zeta in Hc;
    destruct (save_task_status cfg E task_id "success" k w) as [r w' ev] eqn:Hs
  end.
  world_simpl in Hc.
  destruct Hc as (_ & _ & _ & _ & [(-> & -> & _)|(e & b & -> & -> & Hn)]).
  - rewrite (bind_done _ _ _ _ _ _ Hs).
    unfold bind, send_webhook_notification, create_task_delete, emit, ret.
    destruct (bool_decide _); world_simpl.
    all: apply (shape_success E key []); [constructor| |by repeat constructor|done].
    all: unfold status_is; by rewrite task_record_status.
  - rewrite (bind_raised _ _ _ _ _ _ Hs). world_simpl.
    by apply (shape_store_raised E key []).
Qed.

Lemma shaped_execute music_path fade_duration work_dir num_files :
  shaped E key (execute cfg E task_id music_path fade_duration work_dir num_files).
Proof.
  unfold execute.
  apply shaped_bind; [by apply silent_quiet|intros script_there].
  destruct script_there; cbn [negb]; [|by apply shaped_save_failed].
  apply shaped_bind; [by apply silent_quiet|intros runnable].
  destruct runnable; cbn [negb]; [|by apply shaped_save_failed].
  apply shaped_bind; [apply quiet_spawn|intros [[returncode stdout] stderr]].
  apply shaped_bind.
  { apply silent_quiet. destruct (nonempty stdout); [|done].
    apply silent_bind; [apply silent_decode|done]. }
  intros _. apply shaped_bind.
  { apply silent_quiet. destruct (nonempty stderr); [|done].
    apply silent_bind; [apply silent_decode|done]. }
  intros _. destruct (returncode =? 0); cbn [negb].
  - apply shaped_bind; [by apply silent_quiet|intros result_there].
    destruct result_there; cbn [negb]; [apply shaped_finalize|].
    apply shaped_bind; [by apply silent_quiet|intros files].
    by apply shaped_save_failed.
  - apply shaped_bind.
    { apply silent_quiet. destruct (nonempty stderr); [apply silent_decode|done]. }
    intros error_msg. by apply shaped_save_failed.
Qed.

Lemma shaped_process_body zip_path music_path fade_duration work_dir :
  shaped E key (process_body cfg E task_id zip_path music_path fade_duration work_dir).
Proof.
  unfold process_body.
  apply shaped_bind; [by apply quiet_save_processing|intros _].
  apply shaped_bind; [by apply silent_quiet|intros zip_there].
  destruct zip_there; cbn [negb]; [|by apply shaped_save_failed].
  apply shaped_bind.
  { apply silent_quiet. apply silent_try_except; [|done].
    apply silent_bind; [|done]. by intros w. }
  intros [e|]; [by apply shaped_save_failed|].
  apply shaped_bind; [by apply silent_quiet|intros all_files].
  destruct (bool_decide _); [by apply shaped_save_failed|].
  apply shaped_bind; [by apply silent_quiet|intros music_there].
  destruct music_there; cbn [negb]; [|by apply shaped_save_failed].
  apply shaped_bind; [by apply quiet_save_processing|intros _].
  apply shaped_execute.
Qed.

End Shape.

(** ** Reading event lists *)

Lemma quiet_not_terminal e : quiet e = true → is_terminal_write e = false.
Proof. destruct e; cbn; try done. by intros ->%negb_true_iff. Qed.

Lemma quiet_not_notice e : quiet e = true → is_notice e = false.
Proof. by destruct e. Qed.

Lemma quiet_not_cleanup e : quiet e = true → is_cleanup e = false.
Proof. by destruct e. Qed.

Lemma quiet_not_success e : quiet e = true → is_success_write e = false.
Proof.
  destruct e as [k v b| | | | | |]; cbn; try done. unfold terminal.
  intros [? _]%negb_true_iff%orb_false_iff. by destruct b.
Qed.

Lemma quiet_not_failed e : quiet e = true → is_failed_write e = false.
Proof.
  destruct e as [k v b| | | | | |]; cbn; try done. unfold terminal.
  by intros [_ ?]%negb_true_iff%orb_false_iff.
Qed.

Lemma cleanup_not_terminal e : is_cleanup e = true → is_terminal_write e = false.
Proof. by destruct e. Qed.

Lemma cleanup_not_notice e : is_cleanup e = true → is_notice e = false.
Proof. by destruct e. Qed.

Lemma notice_not_cleanup e : is_notice e = true → is_cleanup e = false.
Proof. by destruct e. Qed.

Lemma notice_not_terminal e : is_notice e = true → is_terminal_write e = false.
Proof. by destruct e. Qed.

Lemma persisted_is_terminal e :
  is_terminal_write e = false → is_persisted_terminal_write e = false.
Proof. destruct e as [k v []| | | | | |]; cbn; done. Qed.

Lemma filter_none {A} (p : A → bool) (l : list A) :
  Forall (λ x, p x = false) l → List.filter p l = [].
Proof. induction 1 as [|x l Hx _ IH]; cbn; [done|]. by rewrite Hx. Qed.

Lemma terminal_writes_app l1 l2 :
  terminal_writes (l1 ++ l2) = (terminal_writes l1 + terminal_writes l2)%nat.
Proof. unfold terminal_writes. by rewrite List.filter_app, length_app. Qed.

Lemma persisted_terminal_writes_app l1 l2 :
  persisted_terminal_writes (l1 ++ l2)
  = (persisted_terminal_writes l1 + persisted_terminal_writes l2)%nat.
Proof. unfold persisted_terminal_writes. by rewrite List.filter_app, length_app. Qed.

Lemma terminal_writes_none l :
  Forall (λ e, is_terminal_write e = false) l →
  terminal_writes l = 0%nat ∧ persisted_terminal_writes l = 0%nat.
Proof.
  intros Hl. unfold terminal_writes, persisted_terminal_writes.
  rewrite !filter_none; [done| |done].
  eapply Forall_impl; [done|]. apply persisted_is_terminal.
Qed.

Lemma preceded_skip p q pre l :
  Forall (λ e, p e = false ∧ q e = false) pre →
  preceded p q (pre ++ l) = preceded p q l.
Proof. induction 1 as [|x pre [Hp Hq] _ IH]; cbn; [done|]. by rewrite Hp, Hq. Qed.

Lemma preceded_none p q l :
  Forall (λ e, q e = false) l → preceded p q l = true.
Proof.
  induction 1 as [|x l Hq _ IH]; cbn; [done|]. rewrite Hq, IH. by destruct (p x).
Qed.

Lemma never_after_skip p q pre l :
  Forall (λ e, p e = false) pre →
  never_after p q (pre ++ l) = never_after p q l.
Proof. induction 1 as [|x pre Hp _ IH]; cbn; [done|]. by rewrite Hp. Qed.

Lemma forallb_none {A} (q : A → bool) (l : list A) :
  Forall (λ e, q e = false) l → forallb (λ x, negb (q x)) l = true.
Proof. induction 1 as [|x l Hq _ IH]; cbn; [done|]. by rewrite Hq, IH. Qed.

Lemma existsb_none {A} (q : A → bool) (l : list A) :
  Forall (λ e, q e = false) l → existsb q l = false.
Proof. induction 1 as [|x l Hq _ IH]; cbn; [done|]. by rewrite Hq, IH. Qed.

(** ** The run as a whole *)

Section Run.

Variables (cfg : Settings) (E : env).
Variables (task_id : string) (zip_path music_path : path).
Variables (fade_duration : Z) (work_dir : path).

Abbreviation the_run w :=
  (process_video_task cfg E task_id zip_path music_path fade_duration work_dir w).
Abbreviation the_key := (get_redis_key cfg task_id).

(** The events of a run: those of the [try] block, at most one write of the
    [except] block, then the [finally] block. *)
Lemma run_events w :
  ∃ rb bev hev rest,
    emitted (the_run w) = bev ++ hev ++ EvCleanup task_id :: rest ∧
    Forall (λ e, is_cleanup e = true) rest ∧
    body_shape E the_key rb bev ∧
    ((rb = Done tt ∧ hev = [] ∧ result (the_run w) = Done tt) ∨
     ((∃ e, rb = Raised e) ∧
      ∃ v b, hev = [EvSet the_key v b] ∧ status_is "failed" v = true ∧
             (reliable E → b = true ∧ result (the_run w) = Done tt))).
Proof.
  unfold process_video_task, try_finally, try_except.
  pose proof (shaped_process_body cfg E task_id zip_path music_path
                fade_duration work_dir w) as Hshape.
  destruct (process_body cfg E task_id zip_path music_path fade_duration work_dir w)
    as [rb wb bev].
  world_simpl in Hshape. destruct rb as [[]|e]; world_simpl.
  - destruct (cleanup_spec E task_id zip_path work_dir wb)
      as (Hres & _ & (rest & Hev & Hrest) & _).
    rewrite Hres, Hev. exists (Done tt), bev, [], rest. by eauto 10.
  - unfold on_exception.
    match goal with |- context [save_task_status _ _ _ _ ?k] =>
      pose proof (save_task_status_cases cfg E task_id "failed" k wb) as Hc;
      cbv zeta in Hc;
      destruct (save_task_status cfg E task_id "failed" k wb) as [rh wh hev]
    end.
    world_simpl in Hc. world_simpl.
    destruct (cleanup_spec E task_id zip_path work_dir wh)
      as (Hres & _ & (rest & Hev & Hrest) & _).
    rewrite Hres, Hev, <- app_assoc.
    exists (Raised e), bev, hev, rest. split_and!; [done..|].
    right. split; [by eexists|].
    destruct Hc as (_ & _ & _ & _ & [(-> & -> & _)|(e' & b & -> & -> & Hn)]).
    + eexists _, true. split_and!; [done| |done].
      unfold status_is. by rewrite task_record_status.
    + eexists _, b. split_and!; [done| |done].
      unfold status_is. by rewrite task_record_status.
Qed.

(** Where a run leaves the two staged paths. *)
Lemma run_leftovers w :
  (EvRmtree work_dir false ∉ emitted (the_run w) →
   path_exists (fs (final (the_run w))) work_dir = false) ∧
  (EvRemove zip_path false ∉ emitted (the_run w) →
   path_exists (fs (final (the_run w))) zip_path = false).
Proof.
  unfold process_video_task, try_finally. world_simpl.
  match goal with |- context [cleanup E task_id zip_path work_dir ?w1] =>
    destruct (cleanup_spec E task_id zip_path work_dir w1) as (_ & _ & _ & H1 & H2)
  end.
  split; intros Hno; [apply H1|apply H2]; intros Hin; apply Hno;
    apply elem_of_app; by right.
Qed.

End Run.

Lemma shape_no_cleanup E key r evs :
  body_shape E key r evs → Forall (λ e, is_cleanup e = false) evs.
Proof.
  intros Hs. destruct Hs.
  - apply Forall_app. split; [|by repeat constructor].
    eapply Forall_impl; [done|]. apply quiet_not_cleanup.
  - apply Forall_app. split; [eapply Forall_impl; [done|]; apply quiet_not_cleanup|].
    constructor; [done|]. eapply Forall_impl; [done|]. apply notice_not_cleanup.
  - eapply Forall_impl; [done|]. apply quiet_not_cleanup.
  - apply Forall_app. split; [|by repeat constructor].
    eapply Forall_impl; [done|]. apply quiet_not_cleanup.
Qed.

Lemma existsb_false_not_elem {A} (p : A → bool) (l : list A) x :
  existsb p l = false → p x = true → x ∉ l.
Proof.
  intros Hl Hx Hin. apply list_elem_of_In in Hin.
  assert (existsb p l = true) as Ht by (apply existsb_exists; eauto).
  congruence.
Qed.

(** * The claims *)

(** C1 (as amended). On every path through [process_video_task] the
    [finally] block runs after the last status write and tries to remove the
    working directory and the staged archive, each on its own and each
    best-effort: when no removal that was tried failed, neither path exists
    once the run is over, and no terminal status is written after the
    removal began. *)
Theorem C1_staged_inputs_removed (cfg : Settings) (E : env) (task_id : string)
    (zip_path music_path : path) (fade_duration : Z) (work_dir : path) (w : world) :
  let r := process_video_task cfg E task_id zip_path music_path fade_duration work_dir w in
  existsb is_failed_removal (emitted r) = false →
  path_exists (fs (final r)) work_dir = false ∧
  path_exists (fs (final r)) zip_path = false ∧
  never_after is_cleanup is_terminal_write (emitted r) = true.
Proof.
  intros r Hno.
  destruct (run_leftovers cfg E task_id zip_path music_path fade_duration work_dir w)
    as [Hw Hz].
  split_and!.
  - apply Hw. by eapply existsb_false_not_elem.
  - apply Hz. by eapply existsb_false_not_elem.
  - destruct (run_events cfg E task_id zip_path music_path fade_duration work_dir w)
      as (rb & bev & hev & rest & Hev & Hrest & Hshape & Hh).
    subst r. rewrite Hev, app_assoc.
    rewrite never_after_skip.
    + cbn. apply forallb_none. eapply Forall_impl; [done|]. apply cleanup_not_terminal.
    + apply Forall_app. split; [by eapply shape_no_cleanup|].
      destruct Hh as [(_ & -> & _)|(_ & v & b & -> & _)]; by repeat constructor.
Qed.

(** C1, an instance: a successful job on the demo installation; both staged
    paths are gone afterwards. *)
Lemma C1_staged_inputs_removed_witness :
  let r := run_job config (Demo.installation Demo.always_up Demo.render false)
             Demo.job0 (Demo.staged "PK:two-clips") in
  path_exists (fs (final r)) ["temp"; "job-0"] = false ∧
  path_exists (fs (final r)) ["temp"; "job-0.zip"] = false ∧
  never_after is_cleanup is_terminal_write (emitted r) = true.
Proof.
  apply (C1_staged_inputs_removed config
           (Demo.installation Demo.always_up Demo.render false)
           "job-0" ["temp"; "job-0.zip"] ["temp"; "job-0"; "music.mp3"] 3
           ["temp"; "job-0"] (Demo.staged "PK:two-clips")).
  vm_compute. reflexivity.
Defined.

(** C1, as stated, fails: the operating system refuses the removal, the
    [except] clause around [shutil.rmtree] swallows the error, and the
    working directory and the archive are still there after the job wrote
    its terminal status. *)
Lemma C1_counterexample :
  let r := run_job config (Demo.installation Demo.always_up Demo.render true)
             Demo.job0 (Demo.staged "PK:two-clips") in
  persisted_terminal_writes (emitted r) = 1%nat ∧
  result r = Done tt ∧
  path_exists (fs (final r)) ["temp"; "job-0"] = true ∧
  path_exists (fs (final r)) ["temp"; "job-0.zip"] = true.
Proof. vm_compute. by split_and!. Qed.

Lemma shape_counts E key r evs :
  body_shape E key r evs →
  match r with
  | Done _ => terminal_writes evs = 1%nat ∧ persisted_terminal_writes evs = 1%nat
  | Raised _ =>
      reliable E → terminal_writes evs = 0%nat ∧ persisted_terminal_writes evs = 0%nat
  end.
Proof.
  intros Hs. destruct Hs as [pre v Hpre Hv|pre v notes Hpre Hv Hnotes _|pre e Hpre|].
  - rewrite terminal_writes_app, persisted_terminal_writes_app.
    destruct (terminal_writes_none pre) as [-> ->].
    { eapply Forall_impl; [done|]. apply quiet_not_terminal. }
    unfold terminal_writes, persisted_terminal_writes. cbn. unfold terminal.
    by rewrite Hv, orb_true_r.
  - rewrite terminal_writes_app, persisted_terminal_writes_app.
    destruct (terminal_writes_none pre) as [-> ->].
    { eapply Forall_impl; [done|]. apply quiet_not_terminal. }
    change (EvSet key v true :: notes) with ([EvSet key v true] ++ notes).
    rewrite terminal_writes_app, persisted_terminal_writes_app.
    destruct (terminal_writes_none notes) as [-> ->].
    { eapply Forall_impl; [done|]. apply notice_not_terminal. }
    unfold terminal_writes, persisted_terminal_writes. cbn. unfold terminal.
    by rewrite Hv.
  - intros _. apply terminal_writes_none.
    eapply Forall_impl; [done|]. apply quiet_not_terminal.
  - done.
Qed.

(** C2 (as amended). As long as Redis takes every command, each run of
    [process_video_task] writes a terminal status exactly once, whichever way
    it goes: an early [failed] return, the [success] at the end, or an
    exception of any other operation caught by the [except] block. *)
Theorem C2_one_terminal_write (cfg : Settings) (E : env) (task_id : string)
    (zip_path music_path : path) (fade_duration : Z) (work_dir : path) (w : world) :
  reliable E →
  let r := process_video_task cfg E task_id zip_path music_path fade_duration work_dir w in
  terminal_writes (emitted r) = 1%nat ∧
  persisted_terminal_writes (emitted r) = 1%nat ∧
  result r = Done tt.
Proof.
  intros Hup r.
  destruct (run_events cfg E task_id zip_path music_path fade_duration work_dir w)
    as (rb & bev & hev & rest & Hev & Hrest & Hshape & Hh).
  subst r. rewrite Hev.
  rewrite !terminal_writes_app, !persisted_terminal_writes_app.
  destruct (terminal_writes_none (EvCleanup task_id :: rest)) as [-> ->].
  { constructor; [done|]. eapply Forall_impl; [done|]. apply cleanup_not_terminal. }
  apply shape_counts in Hshape.
  destruct Hh as [(-> & -> & Hres)|((e & ->) & v & b & -> & Hv & Hb)].
  - destruct Hshape as [-> ->]. by split_and!.
  - destruct (Hshape Hup) as [-> ->]. destruct (Hb Hup) as [-> Hres].
    unfold terminal_writes, persisted_terminal_writes. cbn. unfold terminal.
    rewrite Hv, orb_true_r. by split_and!.
Qed.

(** C2, an instance: a job that fails because its archive is no archive. *)
Lemma C2_one_terminal_write_witness :
  let r := run_job config (Demo.installation Demo.always_up Demo.render false)
             Demo.job0 (Demo.staged "no archive at all") in
  terminal_writes (emitted r) = 1%nat ∧
  persisted_terminal_writes (emitted r) = 1%nat ∧
  result r = Done tt.
Proof.
  apply (C2_one_terminal_write config
           (Demo.installation Demo.always_up Demo.render false)
           "job-0" ["temp"; "job-0.zip"] ["temp"; "job-0"; "music.mp3"] 3
           ["temp"; "job-0"] (Demo.staged "no archive at all")).
  intros n. reflexivity.
Defined.

(** C2, as stated, fails: Redis is lost after the first status write. The
    [failed] write of the [try] block raises, the [except] block catches the
    error and writes [failed] again, which raises too: two terminal writes
    were made and none of them reached Redis. *)
Lemma C2_counterexample :
  let r := run_job config (Demo.installation Demo.up_for_two Demo.render false)
             Demo.job0 (Demo.staged "no archive at all") in
  terminal_writes (emitted r) = 2%nat ∧
  persisted_terminal_writes (emitted r) = 0%nat ∧
  field (final r) "video_task:job-0" "status" = Some (JStr "processing").
Proof. vm_compute. by split_and!. Qed.

Lemma never_after_none p q l :
  Forall (λ e, q e = false) l → never_after p q l = true.
Proof.
  induction 1 as [|x l Hq Hl IH]; cbn; [done|].
  destruct (p x); [by apply forallb_none|done].
Qed.

Lemma success_not_failed v : status_is "success" v = true → status_is "failed" v = false.
Proof.
  unfold status_is. intros Hs%bool_decide_eq_true.
  apply bool_decide_eq_false. by rewrite Hs.
Qed.

Lemma notice_not_failed e : is_notice e = true → is_failed_write e = false.
Proof. by destruct e. Qed.

Lemma cleanup_not_failed e : is_cleanup e = true → is_failed_write e = false.
Proof. by destruct e. Qed.

(** C3 (as amended). The webhook call and the scheduling of the deferred
    deletion happen only in a run that ends in [success] and writes no
    [failed] status, and both come after the write of the [success] status
    that reached Redis; they are the last statements of the [try] block, so
    they come before the [finally] block removes the working directory and
    the staged archive, not after it. *)
Theorem C3_notice_after_success_before_cleanup (cfg : Settings) (E : env)
    (task_id : string) (zip_path music_path : path) (fade_duration : Z)
    (work_dir : path) (w : world) :
  let r := process_video_task cfg E task_id zip_path music_path fade_duration work_dir w in
  preceded is_success_write is_notice (emitted r) = true ∧
  never_after is_cleanup is_notice (emitted r) = true ∧
  (existsb is_notice (emitted r) = false ∨
   (result r = Done tt ∧ existsb is_failed_write (emitted r) = false)).
Proof.
  intros r.
  destruct (run_events cfg E task_id zip_path music_path fade_duration work_dir w)
    as (rb & bev & hev & rest & Hev & Hrest & Hshape & Hh).
  subst r. rewrite Hev.
  assert (Forall (λ e, is_notice e = false) (EvCleanup task_id :: rest)) as Hcl.
  { constructor; [done|]. eapply Forall_impl; [done|]. apply cleanup_not_notice. }
  assert (Forall (λ e, is_notice e = false) hev) as Hhev.
  { destruct Hh as [(_ & -> & _)|(_ & v & b & -> & _)]; by repeat constructor. }
  assert (∀ pre, Forall (λ e, quiet e = true) pre →
                 Forall (λ e, is_notice e = false) pre) as Hq.
  { intros pre Hpre. eapply Forall_impl; [done|]. apply quiet_not_notice. }
  destruct Hshape as [pre v Hpre Hv|pre v notes Hpre Hv Hnotes Hne|pre e Hpre|pre e v b _ Hpre].
  - assert (Forall (λ e, is_notice e = false)
              ((pre ++ [EvSet (get_redis_key cfg task_id) v true]) ++ hev ++ EvCleanup task_id :: rest)) as Hall.
    { rewrite !Forall_app. split_and!; auto; by repeat constructor. }
    split_and!; [by apply preceded_none|by apply never_after_none|].
    left. by apply existsb_none.
  - destruct Hh as [(_ & -> & Hres)|((e & [=]) & _)]. cbn [app].
    split_and!.
    + rewrite <- app_assoc. rewrite preceded_skip.
      * cbn. by rewrite Hv.
      * eapply Forall_impl; [done|]. intros e He.
        split; [by apply quiet_not_success|by apply quiet_not_notice].
    + rewrite never_after_skip.
      * cbn. apply forallb_none. eapply Forall_impl; [done|]. apply cleanup_not_notice.
      * eapply shape_no_cleanup. by apply (shape_success E (get_redis_key cfg task_id) pre v notes).
    + right. split; [done|]. apply existsb_none.
      rewrite !Forall_app. split_and!.
      * eapply Forall_impl; [done|]. apply quiet_not_failed.
      * constructor; [cbn; by apply success_not_failed|].
        eapply Forall_impl; [done|]. apply notice_not_failed.
      * constructor; [done|]. eapply Forall_impl; [done|]. apply cleanup_not_failed.
  - assert (Forall (λ e, is_notice e = false)
              (pre ++ hev ++ EvCleanup task_id :: rest)) as Hall.
    { rewrite !Forall_app. split_and!; auto. }
    split_and!; [by apply preceded_none|by apply never_after_none|].
    left. by apply existsb_none.
  - assert (Forall (λ e, is_notice e = false)
              ((pre ++ [EvSet (get_redis_key cfg task_id) v b]) ++ hev ++ EvCleanup task_id :: rest)) as Hall.
    { rewrite !Forall_app. split_and!; auto; by repeat constructor. }
    split_and!; [by apply preceded_none|by apply never_after_none|].
    left. by apply existsb_none.
Qed.

(** C3, as stated, fails: in a successful run with a webhook endpoint
    configured the webhook call and the scheduling are both made, and no
    removal of the working directory or the archive has happened before
    them; the removals come last. *)
Lemma C3_counterexample :
  let r := run_job Demo.with_webhook
             (Demo.installation Demo.always_up Demo.render false)
             Demo.job0 (Demo.staged "PK:two-clips") in
  List.filter (λ e, is_notice e || is_cleanup e) (emitted r) =
    [EvWebhook (kw [("task_id", JStr "job-0"); ("status", JStr "success");
                    ("message", JStr "Обработка завершена");
                    ("output_file", JStr "job-0.mp4"); ("file_size", JInt 8);
                    ("expires_at", JTime 3705); ("completed_at", JTime 105)]);
     EvSchedule ["output"; "job-0.mp4"] "job-0" 1;
     EvCleanup "job-0";
     EvRmtree ["temp"; "job-0"] true;
     EvRemove ["temp"; "job-0.zip"] true] ∧
  preceded is_cleanup is_notice (emitted r) = false.
Proof. vm_compute. by split. Qed.

(** C4 (as amended). [save_task_status] builds the whole record anew on
    every call and stamps [created_at] with the time of that call: after any
    status write whose SET reached Redis, the stored [created_at] is the time
    of this write, whatever was stored before. It is the time of the first
    persistence only until the next write. *)
Theorem C4_created_at_is_time_of_write (cfg : Settings) (E : env)
    (task_id status : string) (kwargs : gmap string jvalue) (w : world) :
  kwargs !! "created_at" = None →
  redis_up E (redis_calls w) = true →
  field (final (save_task_status cfg E task_id status kwargs w))
        (get_redis_key cfg task_id) "created_at" = Some (JTime (clock w)).
Proof.
  intros Hk Hup.
  unfold save_task_status, bind, now, redis_set, redis_expire, field, stored.
  world_simpl. rewrite Hup. world_simpl.
  destruct (redis_up E (S (redis_calls w))); world_simpl.
  - rewrite lookup_insert_eq. unfold live. cbn [slot_deadline slot_value].
    world_simpl. rewrite lookup_insert_eq. cbn [fmap option_fmap option_map slot_value].
    by apply task_record_created_at.
  - rewrite lookup_insert_eq. cbn [fmap option_fmap option_map slot_value].
    by apply task_record_created_at.
Qed.

(** C4, an instance: the [processing] write of a job, five seconds after the
    record was created, stores its own time. *)
Lemma C4_created_at_is_time_of_write_witness :
  field (final (save_task_status config
                  (Demo.installation Demo.always_up Demo.render false)
                  "job-0" "processing" (kw [("message", JStr "...")])
                  (with_clock 105 (Demo.staged "PK:two-clips"))))
        (get_redis_key config "job-0") "created_at" = Some (JTime 105).
Proof.
  apply (C4_created_at_is_time_of_write config
           (Demo.installation Demo.always_up Demo.render false)
           "job-0" "processing" (kw [("message", JStr "...")])
           (with_clock 105 (Demo.staged "PK:two-clips"))).
  - vm_compute. reflexivity.
  - reflexivity.
Defined.

(** C4, as stated, fails: the upload handler persists the record at time 100
    with [created_at] 100; the background task, whose script takes five
    seconds, leaves [created_at] 105 in the record. *)
Lemma C4_counterexample :
  let E := Demo.installation Demo.always_up Demo.render false in
  let r1 := process_video config E (Demo.submission "PK:two-clips" None) Demo.boot in
  let r2 := run_job config E Demo.job0 (final r1) in
  result r1 = Done (Accepted "job-0") ∧
  background (final r1) = [Demo.job0] ∧
  field (final r1) "video_task:job-0" "created_at" = Some (JTime 100) ∧
  field (final r2) "video_task:job-0" "created_at" = Some (JTime 105).
Proof. vm_compute. by split_and!. Qed.

(** C5 (as amended). A status write that Redis takes puts the record under
    the job's key with a deadline of [(FILE_RETENTION_HOURS + 1) * 3600]
    seconds from the time of that write, replacing the deadline of any
    earlier write: the record is readable until then and gone from then on.
    Its lifetime is bounded from the last write, not from the first. *)
Theorem C5_expiry_counts_from_last_write (cfg : Settings) (E : env)
    (task_id status : string) (kwargs : gmap string jvalue) (w : world) (d : Z) :
  redis_up E (redis_calls w) = true →
  redis_up E (S (redis_calls w)) = true →
  redis_up E (S (S (redis_calls w))) = true →
  0 ≤ d →
  result (bind (sleep d) (λ _, get_task_status cfg E task_id)
               (final (save_task_status cfg E task_id status kwargs w)))
  = Done (if d <? ttl_seconds cfg
          then Some (task_record task_id status (clock w) kwargs)
          else None).
Proof.
  intros H1 H2 H3 Hd. rewrite (save_task_status_up cfg E _ _ _ _ H1 H2).
  unfold bind, sleep, get_task_status, redis_get. world_simpl.
  rewrite H3, lookup_insert_eq. world_simpl.
  unfold live. cbn [slot_deadline slot_value].
  rewrite Z.max_r by done.
  destruct (d <? ttl_seconds cfg) eqn:Hlt.
  - apply Z.ltb_lt in Hlt. rewrite (proj2 (Z.ltb_lt _ _)) by lia. done.
  - apply Z.ltb_ge in Hlt. rewrite (proj2 (Z.ltb_ge _ _)) by lia. done.
Qed.

(** C5, an instance: one second before the deadline the record is there. *)
Lemma C5_expiry_counts_from_last_write_witness :
  result (bind (sleep 7199) (λ _, get_task_status config
                  (Demo.installation Demo.always_up Demo.render false) "job-0")
               (final (save_task_status config
                  (Demo.installation Demo.always_up Demo.render false)
                  "job-0" "pending" ∅ Demo.boot)))
  = Done (if 7199 <? ttl_seconds config
          then Some (task_record "job-0" "pending" (clock Demo.boot) ∅)
          else None).
Proof.
  apply (C5_expiry_counts_from_last_write config
           (Demo.installation Demo.always_up Demo.render false)
           "job-0" "pending" ∅ Demo.boot 7199); [reflexivity..|lia].
Defined.

(** C5, as stated, fails: the record is created at time 100 with a retention
    of one hour, so the bound of the claim is 100 + 7200; the job's last
    write is at 105, and at 7300 the record is still served. *)
Lemma C5_counterexample :
  let E := Demo.installation Demo.always_up Demo.render false in
  let r1 := process_video config E (Demo.submission "PK:two-clips" None) Demo.boot in
  let r2 := run_job config E Demo.job0 (final r1) in
  clock Demo.boot + ttl_seconds config = 7300 ∧
  field (final r1) "video_task:job-0" "created_at" = Some (JTime 100) ∧
  match result (get_task_status config E "job-0" (with_clock 7300 (final r2))) with
  | Done (Some v) => v !! "status"
  | _ => None
  end = Some (JStr "success").
Proof. vm_compute. by split_and!. Qed.

(** ** Following one path through a run *)

Lemma bind_runs {A B} (m : M A) (k : A → M B) w a w1 ev1 r w2 ev2 :
  m w = Run (Done a) w1 ev1 → k a w1 = Run r w2 ev2 →
  bind m k w = Run r w2 (ev1 ++ ev2).
Proof. intros Hm Hk. by rewrite (bind_done _ _ _ _ _ _ Hm), Hk. Qed.

Lemma run_eq_intro {A} (x : run A) r w evs r' w' evs' :
  x = Run r w evs → r = r' → w = w' → evs = evs' → x = Run r' w' evs'.
Proof. by intros -> -> -> ->. Qed.

Section Paths.

Variables (cfg : Settings) (E : env).
Variables (task_id : string) (zip_path music_path : path).
Variables (fade_duration : Z) (work_dir : path).

Hypothesis Hup : reliable E.

Lemma save_reliable status kwargs w :
  save_task_status cfg E task_id status kwargs w =
    Run (Done tt) (after_save cfg task_id status kwargs w)
        [EvSet (get_redis_key cfg task_id)
               (task_record task_id status (clock w) kwargs) true].
Proof. apply save_task_status_up; apply Hup. Qed.

Lemma field_after_save status kwargs w name :
  field (after_save cfg task_id status kwargs w) (get_redis_key cfg task_id) name
  = task_record task_id status (clock w) kwargs !! name.
Proof.
  unfold field, stored, after_save. cbn [redis].
  by rewrite lookup_insert_eq.
Qed.

(** A run whose [try] block returned: the [finally] block follows and
    leaves Redis alone. *)
Lemma run_of_body w wb evb :
  process_body cfg E task_id zip_path music_path fade_duration work_dir w
    = Run (Done tt) wb evb →
  let r := process_video_task cfg E task_id zip_path music_path fade_duration
             work_dir w in
  result r = Done tt ∧ redis (final r) = redis wb ∧
  ∃ rest, emitted r = evb ++ EvCleanup task_id :: rest ∧
          Forall (λ e, is_cleanup e = true) rest.
Proof.
  intros Hb. unfold process_video_task, try_finally, try_except.
  rewrite Hb. world_simpl.
  destruct (cleanup_spec E task_id zip_path work_dir wb)
    as (Hres & Hredis & (rest & Hev & Hrest) & _).
  rewrite Hres, Hev. eauto 10.
Qed.

(** Staging up to the count of inputs. *)
Lemma staging_finds_nothing w f1 :
  path_exists (fs w) zip_path = true →
  unpack E (fs w) zip_path work_dir = (f1, None) →
  isdir f1 work_dir = true →
  mp4_files (children f1 work_dir) = [] →
  ∃ wb evb,
    process_body cfg E task_id zip_path music_path fade_duration work_dir w
      = Run (Done tt) wb evb ∧
    existsb is_spawn evb = false ∧
    field wb (get_redis_key cfg task_id) "status" = Some (JStr "failed") ∧
    field wb (get_redis_key cfg task_id) "error"
      = Some (JStr "В архиве не найдено .mp4 файлов").
Proof.
  intros Hzip Hun Hdir Hcnt. eexists _, _. split.
  - unfold process_body.
    eapply bind_runs; [apply save_reliable|].
    eapply bind_runs; [reflexivity|]. cbn [fs after_save]. rewrite Hzip. cbn [negb].
    eapply bind_runs.
    { unfold try_except, bind, extractall, fs_op, ret. cbn [fs after_save].
      rewrite Hun. world_simpl. reflexivity. }
    eapply bind_runs.
    { unfold os_listdir, listdir. world_simpl. rewrite Hdir. reflexivity. }
    rewrite Hcnt. cbn [length].
    rewrite bool_decide_eq_true_2 by done.
    apply save_reliable.
  - split_and!; [done|rewrite field_after_save..].
    + by apply task_record_status.
    + by apply task_record_kwarg.
Qed.

Lemma log_stream_ok (s : string) w :
  (if nonempty (Utf8 s) then bind (decode (Utf8 s)) (λ _, ret tt) else ret tt) w
  = Run (Done tt) w [].
Proof. by destruct s. Qed.

(** Staging that finds inputs and the music hands over to [execute]. *)
Lemma staging_reaches_script w f1 r wx evx :
  path_exists (fs w) zip_path = true →
  unpack E (fs w) zip_path work_dir = (f1, None) →
  isdir f1 work_dir = true →
  mp4_files (children f1 work_dir) ≠ [] →
  path_exists f1 music_path = true →
  (∀ w2, fs w2 = f1 → clock w2 = clock w →
     execute cfg E task_id music_path fade_duration work_dir
       (length (mp4_files (children f1 work_dir))) w2 = Run r (wx w2) evx) →
  ∃ w2 evs pre,
    process_body cfg E task_id zip_path music_path fade_duration work_dir w
      = Run r (wx w2) evs ∧
    fs w2 = f1 ∧ clock w2 = clock w ∧
    evs = pre ++ evx ∧ existsb is_spawn pre = false.
Proof.
  intros Hzip Hun Hdir Hcnt Hmusic Hexec. eexists _, _, [_; _]. split_and!.
  - unfold process_body.
    eapply bind_runs; [apply save_reliable|].
    eapply bind_runs; [reflexivity|]. cbn [fs after_save]. rewrite Hzip. cbn [negb].
    eapply bind_runs.
    { unfold try_except, bind, extractall, fs_op, ret. cbn [fs after_save].
      rewrite Hun. world_simpl. reflexivity. }
    eapply bind_runs.
    { unfold os_listdir, listdir. world_simpl. rewrite Hdir. reflexivity. }
    rewrite bool_decide_eq_false_2 by (by destruct (mp4_files _)).
    eapply bind_runs; [reflexivity|]. world_simpl. rewrite Hmusic. cbn [negb].
    eapply bind_runs; [apply save_reliable|].
    apply Hexec; reflexivity.
  - reflexivity.
  - reflexivity.
  - reflexivity.
  - reflexivity.
Qed.

(** The script ran, said 0 and left no [result.mp4]. *)
Lemma script_without_result num_files w f2 so se seconds :
  path_exists (fs w) (SCRIPT_PATH cfg) = true →
  access_x (fs w) (SCRIPT_PATH cfg) = true →
  script E [abspath E (SCRIPT_PATH cfg); py_str (Z.of_nat num_files);
            abspath E music_path; py_str fade_duration] work_dir (fs w)
    = Exited f2 0 (Utf8 so) (Utf8 se) seconds →
  path_exists f2 (path_join work_dir "result.mp4") = false →
  isdir f2 work_dir = true →
  execute cfg E task_id music_path fade_duration work_dir num_files w
  = Run (Done tt)
        (after_save cfg task_id "failed"
           (kw [("error", JStr ("Результирующий файл не создан. Файлы в папке: "
                                +:+ py_repr_list (children f2 work_dir)))])
           (with_clock (clock w + Z.of_nat seconds) (with_fs f2 w)))
        [EvSpawn [abspath E (SCRIPT_PATH cfg); py_str (Z.of_nat num_files);
                  abspath E music_path; py_str fade_duration] work_dir;
         EvSet (get_redis_key cfg task_id)
               (task_record task_id "failed" (clock w + Z.of_nat seconds)
                  (kw [("error", JStr ("Результирующий файл не создан. Файлы в папке: "
                                +:+ py_repr_list (children f2 work_dir)))])) true].
Proof.
  intros Hthere Hx Hrun Hres Hdir.
  eapply run_eq_intro.
  { unfold execute. cbv zeta.
    eapply bind_runs; [reflexivity|]. rewrite Hthere. cbn [negb].
    eapply bind_runs; [reflexivity|]. rewrite Hx. cbn [negb].
    eapply bind_runs.
    { unfold create_subprocess_exec. rewrite Hrun. reflexivity. }
    cbv beta iota.
    eapply bind_runs; [apply log_stream_ok|].
    eapply bind_runs; [apply log_stream_ok|].
    cbn [Z.eqb negb].
    eapply bind_runs; [reflexivity|]. world_simpl. rewrite Hres. cbn [negb].
    eapply bind_runs.
    { unfold os_listdir, listdir. world_simpl. rewrite Hdir. reflexivity. }
    apply save_reliable. }
  all: reflexivity.
Qed.

Lemma field_same_redis w w' k name :
  redis w = redis w' → field w k name = field w' k name.
Proof. unfold field, stored. by intros ->. Qed.

End Paths.

(** C6. A job whose script exits with 0 without leaving [result.mp4] in the
    working directory (staging went through, Redis takes the writes, the
    script's output decodes, the working directory is still there) ends
    [failed]; its error is the message of the missing result followed by the
    listing of the working directory, which no message of a non-zero exit
    can equal. *)
Theorem C6_missing_result_is_its_own_failure (cfg : Settings) (E : env)
    (task_id : string) (zip_path music_path : path) (fade_duration : Z)
    (work_dir : path) (w : world) (f1 f2 : gmap path node) (so se : string)
    (seconds : nat) :
  reliable E →
  path_exists (fs w) zip_path = true →
  unpack E (fs w) zip_path work_dir = (f1, None) →
  isdir f1 work_dir = true →
  mp4_files (children f1 work_dir) ≠ [] →
  path_exists f1 music_path = true →
  path_exists f1 (SCRIPT_PATH cfg) = true →
  access_x f1 (SCRIPT_PATH cfg) = true →
  script E [abspath E (SCRIPT_PATH cfg);
            py_str (Z.of_nat (length (mp4_files (children f1 work_dir))));
            abspath E music_path; py_str fade_duration] work_dir f1
    = Exited f2 0 (Utf8 so) (Utf8 se) seconds →
  path_exists f2 (path_join work_dir "result.mp4") = false →
  isdir f2 work_dir = true →
  let r := process_video_task cfg E task_id zip_path music_path fade_duration
             work_dir w in
  result r = Done tt ∧
  field (final r) (get_redis_key cfg task_id) "status" = Some (JStr "failed") ∧
  field (final r) (get_redis_key cfg task_id) "error"
    = Some (JStr ("Результирующий файл не создан. Файлы в папке: "
                  +:+ py_repr_list (children f2 work_dir))) ∧
  (∀ returncode error_msg,
     "Результирующий файл не создан. Файлы в папке: "
       +:+ py_repr_list (children f2 work_dir)
     ≠ "Ошибка обработки (код " +:+ py_str returncode +:+ "): " +:+ error_msg).
Proof.
  intros Hup Hzip Hun Hdir Hcnt Hmusic Hscript Hx Hrun Hres Hdir2 r.
  destruct (staging_reaches_script cfg E task_id zip_path music_path
              fade_duration work_dir Hup w f1 (Done tt)
              (λ w2, after_save cfg task_id "failed"
                 (kw [("error", JStr ("Результирующий файл не создан. Файлы в папке: "
                                      +:+ py_repr_list (children f2 work_dir)))])
                 (with_clock (clock w2 + Z.of_nat seconds) (with_fs f2 w2)))
              [EvSpawn [abspath E (SCRIPT_PATH cfg);
                        py_str (Z.of_nat (length (mp4_files (children f1 work_dir))));
                        abspath E music_path; py_str fade_duration] work_dir;
               EvSet (get_redis_key cfg task_id)
                 (task_record task_id "failed" (clock w + Z.of_nat seconds)
                    (kw [("error", JStr ("Результирующий файл не создан. Файлы в папке: "
                                         +:+ py_repr_list (children f2 work_dir)))])) true]
              Hzip Hun Hdir Hcnt Hmusic)
    as (w2 & evs & pre & Hbody & Hfs & Hclock & -> & Hpre).
  { intros w2 Hfs Hclock. rewrite <- Hclock.
    apply (script_without_result cfg E task_id music_path fade_duration work_dir
             Hup _ w2 f2 so se seconds); rewrite ?Hfs; done. }
  destruct (run_of_body cfg E task_id zip_path music_path fade_duration work_dir
              w _ _ Hbody) as (Hres' & Hredis & _).
  subst r. split_and!.
  - done.
  - rewrite (field_same_redis _ _ _ _ Hredis), field_after_save.
    by apply task_record_status.
  - rewrite (field_same_redis _ _ _ _ Hredis), field_after_save.
    by apply task_record_kwarg.
  - intros returncode error_msg Heq. cbn [String.append] in Heq. discriminate Heq.
Qed.

(** C6, an instance: two clips staged, a script that exits with 0 and
    writes nothing. *)
Lemma C6_missing_result_is_its_own_failure_witness :
  let E := Demo.installation Demo.always_up Demo.idle false in
  let w := Demo.staged "PK:two-clips" in
  let f1 := (unpack E (fs w) ["temp"; "job-0.zip"] ["temp"; "job-0"]).1 in
  let r := run_job config E Demo.job0 w in
  result r = Done tt ∧
  field (final r) "video_task:job-0" "status" = Some (JStr "failed") ∧
  field (final r) "video_task:job-0" "error"
    = Some (JStr ("Результирующий файл не создан. Файлы в папке: "
                  +:+ py_repr_list (children f1 ["temp"; "job-0"]))) ∧
  (∀ returncode error_msg,
     "Результирующий файл не создан. Файлы в папке: "
       +:+ py_repr_list (children f1 ["temp"; "job-0"])
     ≠ "Ошибка обработки (код " +:+ py_str returncode +:+ "): " +:+ error_msg).
Proof.
  intros E w f1.
  apply (C6_missing_result_is_its_own_failure config E "job-0"
           ["temp"; "job-0.zip"] ["temp"; "job-0"; "music.mp3"] 3
           ["temp"; "job-0"] w f1 f1 "" "" 1).
  - intros n. reflexivity.
  - vm_compute. reflexivity.
  - vm_compute. reflexivity.
  - vm_compute. reflexivity.
  - vm_compute. discriminate.
  - vm_compute. reflexivity.
  - vm_compute. reflexivity.
  - vm_compute. reflexivity.
  - reflexivity.
  - vm_compute. reflexivity.
  - vm_compute. reflexivity.
Defined.

(** C7. A job whose working directory holds no name ending in [.mp4] once
    the archive is unpacked (the archive is there and unpacks, Redis takes
    the writes) ends [failed] with the error that no [.mp4] files were found
    in the archive, and the script is never started. *)
Theorem C7_no_inputs_fails_without_script (cfg : Settings) (E : env)
    (task_id : string) (zip_path music_path : path) (fade_duration : Z)
    (work_dir : path) (w : world) (f1 : gmap path node) :
  reliable E →
  path_exists (fs w) zip_path = true →
  unpack E (fs w) zip_path work_dir = (f1, None) →
  isdir f1 work_dir = true →
  mp4_files (children f1 work_dir) = [] →
  let r := process_video_task cfg E task_id zip_path music_path fade_duration
             work_dir w in
  result r = Done tt ∧
  field (final r) (get_redis_key cfg task_id) "status" = Some (JStr "failed") ∧
  field (final r) (get_redis_key cfg task_id) "error"
    = Some (JStr "В архиве не найдено .mp4 файлов") ∧
  existsb is_spawn (emitted r) = false.
Proof.
  intros Hup Hzip Hun Hdir Hcnt r.
  destruct (staging_finds_nothing cfg E task_id zip_path music_path fade_duration
              work_dir Hup w f1 Hzip Hun Hdir Hcnt)
    as (wb & evb & Hbody & Hspawn & Hstatus & Herror).
  destruct (run_of_body cfg E task_id zip_path music_path fade_duration work_dir
              w _ _ Hbody) as (Hres & Hredis & rest & Hev & Hrest).
  subst r. split_and!.
  - done.
  - by rewrite (field_same_redis _ _ _ _ Hredis).
  - by rewrite (field_same_redis _ _ _ _ Hredis).
  - rewrite Hev, existsb_app, Hspawn. cbn. apply existsb_none.
    eapply Forall_impl; [done|]. by intros [].
Qed.

(** C7, an instance: an archive whose only clip lies in a subdirectory. *)
Lemma C7_no_inputs_fails_without_script_witness :
  let E := Demo.installation Demo.always_up Demo.render false in
  let r := run_job config E Demo.job0 (Demo.staged "PK:nested") in
  result r = Done tt ∧
  field (final r) "video_task:job-0" "status" = Some (JStr "failed") ∧
  field (final r) "video_task:job-0" "error"
    = Some (JStr "В архиве не найдено .mp4 файлов") ∧
  existsb is_spawn (emitted r) = false.
Proof.
  intros E.
  apply (C7_no_inputs_fails_without_script config E "job-0"
           ["temp"; "job-0.zip"] ["temp"; "job-0"; "music.mp3"] 3
           ["temp"; "job-0"] (Demo.staged "PK:nested")
           (unpack E (fs (Demo.staged "PK:nested")) ["temp"; "job-0.zip"]
                   ["temp"; "job-0"]).1).
  - intros n. reflexivity.
  - vm_compute. reflexivity.
  - vm_compute. reflexivity.
  - vm_compute. reflexivity.
  - vm_compute. reflexivity.
Defined.

(** ** What [os.listdir] sees *)

Lemma child_of_Some d p name : child_of d p = Some name ↔ p = d ++ [name].
Proof.
  unfold child_of. split.
  - destruct (reverse p) as [|n rparent] eqn:Hrev; [done|].
    destruct (decide (reverse rparent = d)) as [<-|]; [|done].
    intros [= ->]. rewrite <- (reverse_involutive p), Hrev.
    by rewrite reverse_cons.
  - intros ->. rewrite reverse_app. cbn.
    by rewrite decide_True by apply reverse_involutive.
Qed.

Lemma elem_of_children (f : gmap path node) d name :
  name ∈ children f d ↔ is_Some (f !! (d ++ [name])).
Proof.
  unfold children. rewrite list_elem_of_omap. split.
  - intros ([p n] & Hin & Hc). apply elem_of_map_to_list in Hin.
    apply child_of_Some in Hc. cbn in Hc. subst p. by eexists.
  - intros [n Hn]. exists (d ++ [name], n). split.
    + by apply elem_of_map_to_list.
    + by apply child_of_Some.
Qed.

Lemma NoDup_omap_keys {K A B} (g : K → option B) (l : list (K * A)) :
  NoDup (l.*1) →
  (∀ x y b, g x = Some b → g y = Some b → x = y) →
  NoDup (omap (λ kv, g kv.1) l).
Proof.
  intros Hl Hg. induction l as [|[k a] l IH]; cbn; [constructor|].
  cbn in Hl. apply NoDup_cons in Hl as [Hk Hl].
  destruct (g k) as [b|] eqn:Hb; [|by apply IH].
  apply NoDup_cons. split; [|by apply IH].
  rewrite list_elem_of_omap. intros ([k' a'] & Hin & Hb'). cbn in Hb'.
  rewrite (Hg _ _ _ Hb Hb') in Hk. apply Hk.
  apply list_elem_of_fmap. by exists (k', a').
Qed.

Lemma NoDup_children (f : gmap path node) d : NoDup (children f d).
Proof.
  unfold children. apply NoDup_omap_keys; [apply NoDup_fst_map_to_list|].
  intros x y b Hx%child_of_Some Hy%child_of_Some. congruence.
Qed.

Lemma NoDup_List_filter {A} (p : A → bool) (l : list A) :
  NoDup l → NoDup (List.filter p l).
Proof.
  induction 1 as [|x l Hx Hl IH]; cbn; [constructor|].
  destruct (p x); [|done]. constructor; [|done].
  rewrite list_elem_of_In, filter_In, <- list_elem_of_In. tauto.
Qed.

(** The names counted as inputs are the direct children of the directory,
    files or directories, whose name ends in [.mp4], each once. *)
Lemma mp4_files_children (f : gmap path node) d :
  NoDup (mp4_files (children f d)) ∧
  ∀ name, name ∈ mp4_files (children f d) ↔
          endswith name ".mp4" = true ∧ is_Some (f !! (d ++ [name])).
Proof.
  split.
  - apply NoDup_List_filter, NoDup_children.
  - intros name. unfold mp4_files.
    rewrite list_elem_of_In, filter_In, <- list_elem_of_In, elem_of_children. tauto.
Qed.

(** ** What the script is told *)

Lemma forall_bind {A B} (P : event → Prop) (m : M A) (k : A → M B) w :
  Forall P (emitted (m w)) →
  (∀ a, result (m w) = Done a → Forall P (emitted (k a (final (m w))))) →
  Forall P (emitted (bind m k w)).
Proof.
  intros Hm Hk. unfold bind. destruct (result (m w)) as [a|e]; world_simpl; [|done].
  apply Forall_app. split; [done|]. by apply Hk.
Qed.

Lemma forall_bind_done {A B} (P : event → Prop) (m : M A) (k : A → M B) w a w1 ev :
  m w = Run (Done a) w1 ev → Forall P ev → Forall P (emitted (k a w1)) →
  Forall P (emitted (bind m k w)).
Proof.
  intros Hm Hev Hk. rewrite (bind_done _ _ _ _ _ _ Hm). world_simpl.
  by apply Forall_app.
Qed.

(** The inner [try] around the extraction: the error, if any, is handed on
    as a value, and what was unpacked stays. *)
Lemma unpack_step E zip_path work_dir w :
  try_except (bind (extractall E zip_path work_dir) (λ _, ret None))
             (λ e, ret (Some e)) w
  = Run (Done (unpack E (fs w) zip_path work_dir).2)
        (with_fs (unpack E (fs w) zip_path work_dir).1 w) [].
Proof.
  unfold try_except, bind, extractall, fs_op, ret.
  by destruct (unpack E (fs w) zip_path work_dir) as [f [e|]].
Qed.

Section Spawn.

Variables (cfg : Settings) (E : env).
Variables (task_id : string) (zip_path music_path : path).
Variables (fade_duration : Z) (work_dir : path).

Abbreviation args_ok n := (spawn_args_ok cfg E music_path fade_duration work_dir n).

Lemma save_args_ok n status kwargs w :
  Forall (args_ok n) (emitted (save_task_status cfg E task_id status kwargs w)).
Proof.
  destruct (save_task_status_cases cfg E task_id status kwargs w)
    as (_ & _ & _ & _ & [(_ & -> & _)|(e & b & _ & -> & _)]); by repeat constructor.
Qed.

Lemma silent_args_ok {A} n (m : M A) w : silent m → Forall (args_ok n) (emitted (m w)).
Proof. intros Hm. rewrite (Hm w). constructor. Qed.

Lemma finalize_args_ok n result_path w :
  Forall (args_ok n) (emitted (finalize cfg E task_id work_dir result_path w)).
Proof.
  unfold finalize.
  apply forall_bind; [by apply silent_args_ok|intros _ _].
  apply forall_bind; [by apply silent_args_ok|intros file_size _].
  apply forall_bind; [by apply silent_args_ok|intros t _].
  apply forall_bind; [by apply silent_args_ok|intros completed _].
  apply forall_bind; [by apply silent_args_ok|intros completed' _].
  apply forall_bind; [apply save_args_ok|intros _ _].
  apply forall_bind.
  - unfold send_webhook_notification, ret, emit.
    destruct (bool_decide _); by repeat constructor.
  - intros _ _. by repeat constructor.
Qed.

Lemma execute_args_ok n w :
  Forall (args_ok n)
         (emitted (execute cfg E task_id music_path fade_duration work_dir n w)).
Proof.
  unfold execute. cbv zeta.
  apply forall_bind; [by apply silent_args_ok|intros script_there _].
  destruct script_there; cbn [negb]; [|apply save_args_ok].
  apply forall_bind; [by apply silent_args_ok|intros runnable _].
  destruct runnable; cbn [negb]; [|apply save_args_ok].
  apply forall_bind.
  { unfold create_subprocess_exec. destruct (script E _ _ _); by repeat constructor. }
  intros [[returncode stdout] stderr] _.
  apply forall_bind.
  { apply silent_args_ok. destruct (nonempty stdout); [|done].
    apply silent_bind; [apply silent_decode|done]. }
  intros _ _. apply forall_bind.
  { apply silent_args_ok. destruct (nonempty stderr); [|done].
    apply silent_bind; [apply silent_decode|done]. }
  intros _ _. destruct (returncode =? 0); cbn [negb].
  - apply forall_bind; [by apply silent_args_ok|intros result_there _].
    destruct result_there; cbn [negb]; [apply finalize_args_ok|].
    apply forall_bind; [by apply silent_args_ok|intros files _].
    apply save_args_ok.
  - apply forall_bind.
    { apply silent_args_ok. destruct (nonempty stderr); [apply silent_decode|done]. }
    intros error_msg _. apply save_args_ok.
Qed.

Lemma process_body_args_ok w :
  Forall (args_ok (length (mp4_files
                     (children (unpack E (fs w) zip_path work_dir).1 work_dir))))
         (emitted (process_body cfg E task_id zip_path music_path fade_duration
                     work_dir w)).
Proof.
  unfold process_body.
  apply forall_bind; [apply save_args_ok|intros _ _].
  match goal with |- context [final (save_task_status _ _ _ _ ?k w)] =>
    destruct (save_task_status_cases cfg E task_id "processing" k w) as (Hfs & _);
    generalize dependent (final (save_task_status cfg E task_id "processing" k w))
  end.
  intros w1 Hfs. rewrite <- Hfs.
  apply forall_bind; [by apply silent_args_ok|intros zip_there _].
  destruct zip_there; cbn [negb]; [|apply save_args_ok].
  cbn [final os_path_exists].
  eapply forall_bind_done; [apply unpack_step|constructor|].
  destruct (unpack E (fs w1) zip_path work_dir) as [f1 [e|]]; world_simpl.
  { apply save_args_ok. }
  unfold os_listdir, listdir.
  destruct (isdir f1 work_dir) eqn:Hdir.
  - eapply forall_bind_done.
    { world_simpl. rewrite Hdir. reflexivity. }
    { constructor. }
    destruct (bool_decide _); [apply save_args_ok|].
    apply forall_bind; [by apply silent_args_ok|intros music_there _].
    destruct music_there; cbn [negb]; [|apply save_args_ok].
    apply forall_bind; [apply save_args_ok|intros _ _].
    apply execute_args_ok.
  - erewrite bind_raised; [constructor|].
    world_simpl. rewrite Hdir. reflexivity.
Qed.

End Spawn.

(** C9. Whenever a run starts the script, its first argument is the decimal
    count of the names [os.listdir] finds directly in the working directory
    after the archive was unpacked that end in [.mp4], the second the music
    path, the third the fade, and it runs in the working directory. The
    names counted are exactly the direct children of the working directory,
    whatever they are: a directory of that name counts, a file deeper
    down does not. *)
Theorem C9_input_count_is_top_level_mp4_names (cfg : Settings) (E : env)
    (task_id : string) (zip_path music_path : path) (fade_duration : Z)
    (work_dir : path) (w : world) :
  let r := process_video_task cfg E task_id zip_path music_path fade_duration
             work_dir w in
  let unpacked := (unpack E (fs w) zip_path work_dir).1 in
  let inputs := mp4_files (children unpacked work_dir) in
  Forall (spawn_args_ok cfg E music_path fade_duration work_dir (length inputs))
         (emitted r) ∧
  NoDup inputs ∧
  ∀ name, name ∈ inputs ↔
          endswith name ".mp4" = true ∧ is_Some (unpacked !! (work_dir ++ [name])).
Proof.
  intros r unpacked inputs. split; [|apply mp4_files_children].
  subst r inputs unpacked.
  unfold process_video_task, try_finally, try_except.
  pose proof (process_body_args_ok cfg E task_id zip_path music_path fade_duration
                work_dir w) as Hbody.
  destruct (process_body cfg E task_id zip_path music_path fade_duration work_dir w)
    as [rb wb bev].
  world_simpl in Hbody. destruct rb as [[]|e]; world_simpl.
  - apply Forall_app. split; [done|].
    destruct (cleanup_spec E task_id zip_path work_dir wb)
      as (_ & _ & (rest & -> & Hrest) & _).
    constructor; [done|]. eapply Forall_impl; [done|]. by intros [].
  - apply Forall_app. split.
    + apply Forall_app. split; [done|]. apply save_args_ok.
    + match goal with |- context [cleanup E task_id zip_path work_dir ?w1] =>
        destruct (cleanup_spec E task_id zip_path work_dir w1)
          as (_ & _ & (rest & -> & Hrest) & _)
      end.
      constructor; [done|]. eapply Forall_impl; [done|]. by intros [].
Qed.

(** A clip inside a subdirectory of the archive is not counted, a directory
    whose name ends in [.mp4] is, and so is no name in upper case. *)
Example nested_clip_not_counted :
  let E := Demo.installation Demo.always_up Demo.render false in
  let unpacked := (unpack E (fs (Demo.staged "PK:nested")) ["temp"; "job-0.zip"]
                          ["temp"; "job-0"]).1 in
  unpacked !! ["temp"; "job-0"; "clips"; "001.mp4"] = Some (FileN "clip one" false) ∧
  mp4_files (children unpacked ["temp"; "job-0"]) = [].
Proof. vm_compute. by split. Qed.

Example mp4_directory_counted :
  let E := Demo.installation Demo.always_up Demo.render false in
  let r := run_job config E Demo.job0 (Demo.staged "PK:mp4-directory") in
  List.filter is_spawn (emitted r) =
    [EvSpawn ["/srv/process_all.sh"; "1"; "/srv/temp/job-0/music.mp3"; "3"]
             ["temp"; "job-0"]].
Proof. vm_compute. reflexivity. Qed.

Example upper_case_not_counted :
  let E := Demo.installation Demo.always_up Demo.render false in
  let unpacked := (unpack E (fs (Demo.staged "PK:upper-case")) ["temp"; "job-0.zip"]
                          ["temp"; "job-0"]).1 in
  unpacked !! ["temp"; "job-0"; "001.MP4"] = Some (FileN "clip one" false) ∧
  mp4_files (children unpacked ["temp"; "job-0"]) = [].
Proof. vm_compute. by split. Qed.

(** ** The upload handler *)

Lemma try_except_done {A} (m : M A) h w a w' ev :
  m w = Run (Done a) w' ev → try_except m h w = Run (Done a) w' ev.
Proof. unfold try_except. by intros ->. Qed.

Lemma try_except_raised {A} (m : M A) h w e w' ev :
  m w = Run (Raised e) w' ev →
  try_except m h w = Run (result (h e w')) (final (h e w')) (ev ++ emitted (h e w')).
Proof. unfold try_except. by intros ->. Qed.

Ltac step :=
  first [ erewrite bind_done by reflexivity
        | erewrite bind_raised by reflexivity ];
  cbv beta; cbn [result final emitted app negb];
  repeat match goal with
         | H : _ = true |- _ => rewrite H
         | H : _ = false |- _ => rewrite H
         end;
  cbn [negb].

Lemma open_wb_ok f p data f' :
  open_wb f p data = (f', None) →
  p ≠ [] ∧ ∃ x, f' = <[p := FileN data x]> f.
Proof.
  unfold open_wb. destruct p as [|c p]; [done|]. cbn [lookup_path].
  destruct (f !! (c :: p)) as [[d x|]|].
  - intros [= <-]. eauto.
  - done.
  - destruct (isdir f (dirname (c :: p))); [|done]. intros [= <-]. eauto.
Qed.

Lemma makedirs_ok f p f' : makedirs f p = (f', None) → isdir f' p = true.
Proof.
  unfold makedirs. destruct (mkdir_each f (prefixes p)) as [f1 [e|]]; [done|].
  destruct (isdir f1 p) eqn:Hd; [|done]. by intros [= <-].
Qed.

Lemma bind_fs_op {B} op (k : unit → M B) w :
  bind (fs_op op) k w =
  match (op (fs w)).2 with
  | None => k tt (with_fs (op (fs w)).1 w)
  | Some e => Run (Raised e) (with_fs (op (fs w)).1 w) []
  end.
Proof.
  unfold bind, fs_op. world_simpl. destruct (op (fs w)).2; world_simpl; [done|].
  by destruct (k tt _).
Qed.

Lemma string_length_app (s t : string) :
  String.length (s +:+ t) = (String.length s + String.length t)%nat.
Proof.
  induction s as [|a s IH]; [done|].
  change (S (String.length (s +:+ t)) = S (String.length s + String.length t)).
  by rewrite IH.
Qed.

Section Ingest.

Variables (cfg : Settings) (E : env).

(** Once the checks are passed a job id is drawn; then either everything is
    staged, persisted and queued, or an error is raised and nothing is
    queued. *)
Lemma enqueue_cases video_archive background_music fade_duration w :
  let r := enqueue cfg E video_archive background_music fade_duration w in
  let task_id := uuid4 E (uuids w) in
  let work_dir := path_join (TEMP_DIR cfg) task_id in
  let zip_path := path_join (TEMP_DIR cfg) (task_id +:+ ".zip") in
  let music_path := path_join work_dir "music.mp3" in
  uuids (final r) = S (uuids w) ∧
  ((∃ e, result r = Raised e ∧ background (final r) = background w) ∨
   (result r = Done (Accepted task_id) ∧
    background (final r)
      = background w ++ [Job task_id zip_path music_path fade_duration work_dir] ∧
    isdir (fs (final r)) work_dir = true ∧
    (∃ x, fs (final r) !! zip_path = Some (FileN (content video_archive) x)) ∧
    (∃ x, fs (final r) !! music_path = Some (FileN (content background_music) x)) ∧
    field (final r) (get_redis_key cfg task_id) "status" = Some (JStr "pending"))).
Proof.
  intros r task_id work_dir zip_path music_path. subst r. unfold enqueue.
  erewrite bind_done by reflexivity. cbv beta. world_simpl.
  fold task_id work_dir zip_path music_path.
  set (w1 := with_uuids (S (uuids w)) w).
  rewrite bind_fs_op.
  destruct (makedirs (fs w1) work_dir) as [f1 [e1|]] eqn:Hmk; world_simpl.
  { split; [done|]. left. by eexists. }
  apply makedirs_ok in Hmk.
  rewrite bind_fs_op. world_simpl.
  destruct (open_wb f1 zip_path (content video_archive)) as [f2 [e2|]] eqn:Hzip;
    world_simpl.
  { split; [done|]. left. by eexists. }
  apply open_wb_ok in Hzip as (Hzne & xz & ->).
  rewrite bind_fs_op. world_simpl.
  destruct (open_wb _ music_path (content background_music)) as [f3 [e3|]] eqn:Hmus;
    world_simpl.
  { split; [done|]. left. by eexists. }
  apply open_wb_ok in Hmus as (Hmne & xm & ->).
  match goal with |- context [save_task_status _ _ _ _ ?k] =>
    pose proof (save_task_status_cases cfg E task_id "pending" k
                  (with_fs (<[music_path:=FileN (content background_music) xm]>
                              (<[zip_path:=FileN (content video_archive) xz]> f1)) w1))
      as Hc;
    cbv zeta in Hc;
    destruct (save_task_status cfg E task_id "pending" k
                (with_fs (<[music_path:=FileN (content background_music) xm]>
                            (<[zip_path:=FileN (content video_archive) xz]> f1)) w1))
      as [rs ws evs] eqn:Hs
  end.
  world_simpl in Hc.
  destruct Hc as (Hfs & _ & Hu & Hb & [(-> & -> & Hst)|(e & b & -> & -> & _)]).
  - rewrite (bind_done _ _ _ _ _ _ Hs).
    unfold bind, add_task, ret. world_simpl.
    split; [done|]. right.
    assert (zip_path ≠ music_path) as Hzm.
    { unfold zip_path, music_path, work_dir, path_join. rewrite <- app_assoc.
      intros Heq%app_inv_head. discriminate Heq. }
    assert (work_dir ≠ music_path) as Hwm.
    { unfold music_path, path_join. intros Heq.
      apply (f_equal length) in Heq. rewrite length_app in Heq. cbn in Heq. lia. }
    assert (work_dir ≠ zip_path) as Hwz.
    { unfold zip_path, work_dir, path_join. intros Heq%app_inv_head.
      injection Heq as Heq. apply (f_equal String.length) in Heq.
      rewrite string_length_app in Heq. cbn in Heq. lia. }
    split_and!.
    + done.
    + by rewrite Hb.
    + rewrite Hfs. unfold isdir, lookup_path in *.
      destruct work_dir as [|c p] eqn:Hwd; [done|]. rewrite <- Hwd in *.
      by rewrite !lookup_insert_ne.
    + exists xz. rewrite Hfs. rewrite lookup_insert_ne by done.
      by rewrite lookup_insert_eq.
    + exists xm. rewrite Hfs. by rewrite lookup_insert_eq.
    + rewrite (field_same_redis _ ws) by reflexivity.
      unfold field. rewrite Hst. by apply task_record_status.
  - rewrite (bind_raised _ _ _ _ _ _ Hs). world_simpl.
    split; [done|]. left. eexists. split; [done|]. by rewrite Hb.
Qed.

Lemma server_error_is_not_fade_msg (e : string) :
  "Ошибка создания задачи: " +:+ e ≠ fade_msg.
Proof.
  intros He. cbn [String.append] in He. unfold fade_msg in He. discriminate He.
Qed.

(** The handler either rejects the request, leaving the world as it was, or
    hands it to [enqueue] with a fade duration within bounds; an error
    raised there comes back as a 500. *)
Lemma process_video_cases request w :
  let r := process_video cfg E request w in
  let fade := fade_of E request in
  (final r = w ∧ emitted r = [] ∧
   ∃ code detail, result r = Done (HTTPException code detail) ∧
     (detail = fade_msg → code = 400 ∧ (fade < 0 ∨ 10 < fade)))
  ∨ (0 ≤ fade ≤ 10 ∧
     ∃ vu au, form_video request = Some (FFile vu) ∧
              form_audio request = Some (FFile au) ∧
       final r = final (enqueue cfg E vu au fade w) ∧
       emitted r = emitted (enqueue cfg E vu au fade w) ∧
       result r = match result (enqueue cfg E vu au fade w) with
                  | Done x => Done x
                  | Raised e =>
                      Done (HTTPException 500 ("Ошибка создания задачи: " +:+ e))
                  end).
Proof.
  intros r fade. subst r. destruct request as [v a fd].
  unfold fade_of in fade. cbn [form_fade_duration] in fade.
  unfold process_video.
  cbn [form_video form_audio form_fade_duration]. fold fade.
  pose proof server_error_is_not_fade_msg as H500.
  destruct v as [[sv|vu]|]; [destruct sv| |].
  all: destruct a as [[sa|au]|]; [destruct sa| |].
  all: try (left;
            first [ erewrite try_except_done by (repeat step; reflexivity)
                  | erewrite try_except_raised by (repeat step; reflexivity);
                    cbn [ret result final emitted app] ];
            split_and!; [reflexivity..|]; eexists _, _; split; [reflexivity|];
            intros Hd; exfalso;
            first [exact (H500 _ Hd)|unfold fade_msg in Hd; discriminate Hd]).
  destruct vu as [[vname|] vcontent].
  2:{ left. erewrite try_except_raised by (repeat step; reflexivity).
      cbn [ret result final emitted app].
      split_and!; [reflexivity..|]. eexists _, _. split; [reflexivity|].
      intros Hd. exfalso. exact (H500 _ Hd). }
  destruct (endswith vname ".zip") eqn:Hz.
  2:{ left. erewrite try_except_done by (repeat step; reflexivity).
      split_and!; [reflexivity..|]. eexists _, _. split; [reflexivity|].
      intros Hd. unfold fade_msg in Hd. discriminate Hd. }
  destruct au as [[aname|] acontent].
  2:{ left. erewrite try_except_raised by (repeat step; reflexivity).
      cbn [ret result final emitted app].
      split_and!; [reflexivity..|]. eexists _, _. split; [reflexivity|].
      intros Hd. exfalso. exact (H500 _ Hd). }
  destruct (endswith aname ".mp3") eqn:Hm.
  2:{ left. erewrite try_except_done by (repeat step; reflexivity).
      split_and!; [reflexivity..|]. eexists _, _. split; [reflexivity|].
      intros Hd. unfold fade_msg in Hd. discriminate Hd. }
  destruct ((fade <? 0) || (10 <? fade)) eqn:Hf.
  - left. erewrite try_except_done by (repeat step; reflexivity).
    split_and!; [reflexivity..|]. eexists _, _. split; [reflexivity|].
    intros _. split; [done|]. apply orb_true_iff in Hf as [Hf|Hf]; lia.
  - right. apply orb_false_iff in Hf as [Hf1 Hf2]. split; [lia|].
    eexists _, _. split; [reflexivity|]. split; [reflexivity|].
    cbn [content].
    destruct (enqueue cfg E _ _ fade w) as [[x|e] wq evq] eqn:Hq.
    + erewrite try_except_done; [done|].
      repeat step. rewrite ?Hf1, ?Hf2. cbn [orb]. exact Hq.
    + erewrite try_except_raised.
      2:{ repeat step. rewrite ?Hf1, ?Hf2. cbn [orb]. exact Hq. }
      unfold ret. world_simpl. by rewrite app_nil_r.
Qed.

End Ingest.

(** C8. A request whose [fade_duration] field parses to an integer below 0
    or above 10 is answered with an [HTTPException] before [uuid.uuid4()] is
    called: no job id is drawn, no file written, no status persisted and no
    task queued; the world is as it was. A field that is absent, is an
    upload, or does not parse, counts as 3: the request is not rejected over
    its fade duration, and a job queued for it carries the fade duration 3. *)
Theorem C8_fade_duration_checked_before_any_job (cfg : Settings) (E : env)
    (request : form) (w : world) :
  int_of E "3" = Some 3 →
  let r := process_video cfg E request w in
  (∀ s n, form_fade_duration request = Some (FText s) → int_of E s = Some n →
          n < 0 ∨ 10 < n →
     (∃ code detail, result r = Done (HTTPException code detail)) ∧
     final r = w ∧ emitted r = []) ∧
  (form_fade_duration request = None ∨
   (∃ u, form_fade_duration request = Some (FFile u)) ∨
   (∃ s, form_fade_duration request = Some (FText s) ∧ int_of E s = None) →
     fade_of E request = 3 ∧
     result r ≠ Done (HTTPException 400 fade_msg) ∧
     ∀ j, background (final r) = background w ++ [j] → job_fade_duration j = 3).
Proof.
  intros H3 r. subst r. split.
  - intros s n Hfd Hs Hn.
    assert (fade_of E request = n) as Hfade.
    { unfold fade_of. rewrite Hfd. cbn. by rewrite Hs. }
    destruct (process_video_cases cfg E request w)
      as [(Hw & Hev & code & detail & Hres & _)|(Hrange & _)].
    + eauto.
    + rewrite Hfade in Hrange. lia.
  - intros Hfd.
    assert (fade_of E request = 3) as Hfade.
    { unfold fade_of. destruct Hfd as [->|[[u ->]|(s & -> & Hs)]]; cbn.
      - by rewrite H3.
      - done.
      - by rewrite Hs. }
    split; [done|].
    destruct (process_video_cases cfg E request w)
      as [(Hw & Hev & code & detail & Hres & Hmsg)|
          (Hrange & vu & au & _ & _ & Hfin & _ & Hres)].
    + split.
      * rewrite Hres. intros [= -> ->]. destruct (Hmsg eq_refl) as [_ Hout]. lia.
      * intros j Hj. rewrite Hw in Hj. apply (f_equal length) in Hj.
        rewrite length_app in Hj. cbn in Hj. lia.
    + rewrite Hres, Hfin.
      destruct (enqueue_cases cfg E vu au (fade_of E request) w)
        as (_ & [(e & -> & Hb)|(-> & Hb & _)]).
      * split; [done|]. intros j Hj. rewrite Hb in Hj.
        apply (f_equal length) in Hj. rewrite length_app in Hj. cbn in Hj. lia.
      * split; [done|]. intros j Hj. rewrite Hb in Hj.
        apply app_inj_tail in Hj as [_ <-]. done.
Qed.

(** C8, an instance: a well-formed upload on the demo installation. *)
Lemma C8_fade_duration_checked_before_any_job_witness :
  let E := Demo.installation Demo.always_up Demo.render false in
  let request := Demo.submission "PK:two-clips" (Some (FText "15")) in
  let r := process_video config E request Demo.boot in
  (∀ s n, form_fade_duration request = Some (FText s) → int_of E s = Some n →
          n < 0 ∨ 10 < n →
     (∃ code detail, result r = Done (HTTPException code detail)) ∧
     final r = Demo.boot ∧ emitted r = []) ∧
  (form_fade_duration request = None ∨
   (∃ u, form_fade_duration request = Some (FFile u)) ∨
   (∃ s, form_fade_duration request = Some (FText s) ∧ int_of E s = None) →
     fade_of E request = 3 ∧
     result r ≠ Done (HTTPException 400 fade_msg) ∧
     ∀ j, background (final r) = background Demo.boot ++ [j] →
          job_fade_duration j = 3).
Proof.
  intros E request.
  apply (C8_fade_duration_checked_before_any_job config E request Demo.boot).
  reflexivity.
Defined.

(** Scenario C of the specification, and its counterparts. *)
Example fade_15_rejected :
  let E := Demo.installation Demo.always_up Demo.render false in
  process_video config E (Demo.submission "PK:two-clips" (Some (FText "15"))) Demo.boot
  = Run (Done (HTTPException 400 fade_msg)) Demo.boot [].
Proof. vm_compute. reflexivity. Qed.

Example fade_absent_is_3 :
  let E := Demo.installation Demo.always_up Demo.render false in
  let r := process_video config E (Demo.submission "PK:two-clips" None) Demo.boot in
  result r = Done (Accepted "job-0") ∧
  job_fade_duration <$> background (final r) = [3].
Proof. vm_compute. by split. Qed.

Example fade_unparseable_is_3 :
  let E := Demo.installation Demo.always_up Demo.render false in
  let r := process_video config E
             (Demo.submission "PK:two-clips" (Some (FText "slow"))) Demo.boot in
  result r = Done (Accepted "job-0") ∧
  job_fade_duration <$> background (final r) = [3].
Proof. vm_compute. by split. Qed.

(** ** Extraction over files that are already there *)

Lemma mkdir_keeps f p f' o q n :
  mkdir f p = (f', o) → f !! q = Some n → f' !! q = Some n.
Proof.
  unfold mkdir. destruct (path_exists f p) eqn:Hp; [by intros [= <- <-]|].
  destruct (isdir f (dirname p)); [|by intros [= <- <-]].
  intros [= <- <-] Hq. rewrite lookup_insert_ne; [done|].
  intros ->. unfold path_exists, lookup_path in Hp.
  destruct q; [done|]. by rewrite Hq in Hp.
Qed.

Lemma mkdir_each_keeps qs f f' o q n :
  mkdir_each f qs = (f', o) → f !! q = Some n → f' !! q = Some n.
Proof.
  revert f. induction qs as [|p qs IH]; intros f; cbn [mkdir_each].
  - by intros [= <- <-].
  - destruct (path_exists f p); [apply IH|].
    destruct (mkdir f p) as [f1 [e|]] eqn:Hmk.
    + intros [= <- <-]. by eapply mkdir_keeps.
    + intros He Hq. eapply IH; [done|]. by eapply mkdir_keeps.
Qed.

Lemma makedirs_keeps f p f' o q n :
  makedirs f p = (f', o) → f !! q = Some n → f' !! q = Some n.
Proof.
  unfold makedirs. destruct (mkdir_each f (prefixes p)) as [f1 [e|]] eqn:Hmk.
  - intros [= <- <-]. by eapply mkdir_each_keeps.
  - destruct (isdir f1 p); intros [= <- <-]; by eapply mkdir_each_keeps.
Qed.

Lemma open_wb_lookup f p data f' q :
  open_wb f p data = (f', None) →
  f' !! q = if decide (p = q)
            then Some (FileN data (match f !! p with
                                   | Some (FileN _ x) => x
                                   | _ => false
                                   end))
            else f !! q.
Proof.
  unfold open_wb. destruct p as [|c p]; [done|]. cbn [lookup_path].
  destruct (f !! (c :: p)) as [[d x|]|] eqn:Hp.
  - intros [= <-]. by rewrite lookup_insert.
  - done.
  - destruct (isdir f (dirname (c :: p))); [|done].
    intros [= <-]. by rewrite lookup_insert.
Qed.

(** One member extracted: a file directly inside the target directory keeps
    its bytes unless the member lands on it. *)
Lemma extract_member_file f targetdir m f' name d x :
  extract_member f targetdir m = (f', None) →
  f !! (targetdir ++ [name]) = Some (FileN d x) →
  f' !! (targetdir ++ [name])
  = Some (FileN (if decide (arcname (zname m) = [name]) then zdata m else d) x).
Proof.
  unfold extract_member. intros Hex Hq.
  destruct (bool_decide (arcname (zname m) = []) && negb (is_dir m)); [done|].
  set (target := targetdir ++ arcname (zname m)) in *.
  assert (target = targetdir ++ [name] ↔ arcname (zname m) = [name]) as Htarget.
  { unfold target. split; [by intros ?%app_inv_head|by intros ->]. }
  destruct (if bool_decide (dirname target ≠ []) && negb (path_exists f (dirname target))
            then makedirs f (dirname target) else (f, None)) as [f1 [e|]] eqn:Hup;
    [done|].
  assert (f1 !! (targetdir ++ [name]) = Some (FileN d x)) as Hq1.
  { destruct (bool_decide _ && negb _).
    - by eapply makedirs_keeps.
    - by injection Hup as <-. }
  destruct (is_dir m).
  - destruct (isdir f1 target) eqn:Hd.
    + injection Hex as <-. rewrite decide_False; [done|].
      intros Harc%Htarget. unfold isdir, lookup_path in Hd.
      rewrite Harc in Hd. destruct (targetdir ++ [name]) eqn:Hn; [by destruct targetdir|].
      by rewrite Hq1 in Hd.
    + rewrite decide_False.
      * by eapply mkdir_keeps.
      * intros Harc%Htarget. unfold mkdir, path_exists, lookup_path in Hex.
        rewrite Harc in Hex. destruct (targetdir ++ [name]) eqn:Hn; [by destruct targetdir|].
        by rewrite Hq1 in Hex.
  - rewrite (open_wb_lookup _ _ _ _ (targetdir ++ [name]) Hex).
    destruct (decide (target = targetdir ++ [name])) as [Heq|Hne].
    + rewrite decide_True by by apply Htarget. rewrite Heq, Hq1. done.
    + rewrite decide_False; [done|]. by rewrite <- Htarget.
Qed.

Lemma extract_each_file entries targetdir names f f' name d x :
  extract_each entries targetdir names f = (f', None) →
  f !! (targetdir ++ [name]) = Some (FileN d x) →
  f' !! (targetdir ++ [name]) = Some (FileN (overwritten entries name names d) x).
Proof.
  revert f d. induction names as [|n names IH]; intros f d; cbn [extract_each].
  - by intros [= <-].
  - destruct (getinfo entries n) as [m|] eqn:Hm; [|done].
    destruct (extract_member f targetdir m) as [f1 [e|]] eqn:Hex; [done|].
    intros Hrest Hq. unfold overwritten. cbn [foldl]. rewrite Hm.
    eapply IH; [done|]. by eapply extract_member_file.
Qed.

Lemma last_filter_refine {A} (P Q : A → Prop) `{!∀ x, Decision (P x)}
    `{!∀ x, Decision (Q x)} (l : list A) m :
  last (filter P l) = Some m → (∀ e, Q e → P e) → Q m →
  last (filter Q l) = Some m.
Proof.
  intros Hl HQP Hm. induction l as [|a l IH] using rev_ind; [done|].
  rewrite filter_app in Hl |- *.
  destruct (decide (P a)) as [Ha|Ha].
  - rewrite (filter_cons_True P) in Hl by done. rewrite filter_nil in Hl.
    rewrite last_snoc in Hl. injection Hl as ->.
    rewrite (filter_cons_True Q) by done. by rewrite filter_nil, last_snoc.
  - rewrite (filter_cons_False P) in Hl by done. rewrite filter_nil, app_nil_r in Hl.
    rewrite (filter_cons_False Q) by naive_solver.
    rewrite filter_nil, app_nil_r. by apply IH.
Qed.

Lemma getinfo_member entries e :
  e ∈ entries → ∃ m, getinfo entries (zname e) = Some m ∧ zname m = zname e.
Proof.
  intros He. unfold getinfo.
  destruct (last (filter (λ m, zname m = zname e) entries)) as [m|] eqn:Hl.
  - exists m. split; [done|].
    apply last_Some_elem_of, list_elem_of_filter in Hl. by destruct Hl.
  - apply last_None in Hl. exfalso.
    by eapply (filter_nil_not_elem_of (λ m, zname m = zname e)).
Qed.

(** Extracting a whole archive: the last member that lands on the file
    decides its bytes. *)
Lemma overwritten_by_last entries name d m :
  last (filter (λ m, arcname (zname m) = [name]) entries) = Some m →
  overwritten entries name (zname <$> entries) d = zdata m.
Proof.
  intros Hlast.
  assert (∀ es, (∀ e, e ∈ es → e ∈ entries) →
                overwritten entries name (zname <$> es) d
                = match last (filter (λ m, arcname (zname m) = [name]) es) with
                  | Some e => match getinfo entries (zname e) with
                              | Some m' => zdata m'
                              | None => d
                              end
                  | None => d
                  end) as Hgen.
  { induction es as [|e es IH] using rev_ind; intros Hes; [done|].
    rewrite fmap_app, filter_app. unfold overwritten in *.
    rewrite foldl_app. cbn [fmap list_fmap foldl].
    destruct (getinfo_member entries e) as (m' & Hm' & Hname);
      [apply Hes, elem_of_app; right; by constructor|].
    rewrite Hm', Hname.
    rewrite IH by (intros e' He'; apply Hes, elem_of_app; by left).
    destruct (decide (arcname (zname e) = [name])) as [He|He].
    - rewrite (filter_cons_True _ e) by done.
      by rewrite filter_nil, last_snoc, Hm'.
    - rewrite (filter_cons_False _ e) by done.
      by rewrite filter_nil, app_nil_r. }
  rewrite Hgen by done. rewrite Hlast.
  assert (arcname (zname m) = [name]) as Hm.
  { apply last_Some_elem_of, list_elem_of_filter in Hlast. by destruct Hlast. }
  unfold getinfo.
  rewrite (last_filter_refine (λ m, arcname (zname m) = [name])
             (λ e, zname e = zname m) entries m Hlast); [done| |done].
  intros e He. by rewrite He.
Qed.

(** C10. When the upload handler accepts a request, the uploaded music is
    in [music.mp3] inside the job's working directory before the background
    task has run, and the queued task is given that path and that directory.
    The staging of the task unpacks the archive into the same directory:
    whenever the archive holds a member that lands on [music.mp3] directly
    inside the directory and the extraction goes through, the file holds the
    bytes of the last such member afterwards, not the uploaded music. *)
Theorem C10_archive_music_replaces_upload (cfg : Settings) (E : env)
    (request : form) (w : world) (task_id : string) :
  let r := process_video cfg E request w in
  let work_dir := path_join (TEMP_DIR cfg) task_id in
  let zip_path := path_join (TEMP_DIR cfg) (task_id +:+ ".zip") in
  let music_path := path_join work_dir "music.mp3" in
  result r = Done (Accepted task_id) →
  ∃ video_archive background_music x,
    form_video request = Some (FFile video_archive) ∧
    form_audio request = Some (FFile background_music) ∧
    fs (final r) !! music_path = Some (FileN (content background_music) x) ∧
    background (final r)
      = background w ++ [Job task_id zip_path music_path (fade_of E request) work_dir] ∧
    ∀ entries unpacked m,
      unzip E (content video_archive) = Some entries →
      unpack E (fs (final r)) zip_path work_dir = (unpacked, None) →
      last (filter (λ m, arcname (zname m) = ["music.mp3"]) entries) = Some m →
      unpacked !! music_path = Some (FileN (zdata m) x).
Proof.
  intros r work_dir zip_path music_path Hres.
  destruct (process_video_cases cfg E request w)
    as [(_ & _ & code & detail & Hrej & _)|
        (_ & vu & au & Hv & Ha & Hfin & _ & Hres')].
  { subst r. rewrite Hrej in Hres. discriminate Hres. }
  fold r in Hfin, Hres'. rewrite Hres in Hres'.
  destruct (enqueue_cases cfg E vu au (fade_of E request) w)
    as (_ & [(e & He & _)|(Hacc & Hb & _ & (xz & Hzip) & (xm & Hmus) & _)]).
  { rewrite He in Hres'. discriminate Hres'. }
  rewrite Hacc in Hres'. injection Hres' as ->.
  fold work_dir zip_path music_path in Hb, Hzip, Hmus.
  rewrite <- Hfin in Hb, Hzip, Hmus.
  exists vu, au, xm. split_and!; [done..|].
  intros entries unpacked m Hentries Hun Hlast.
  unfold unpack, lookup_path in Hun.
  assert (zip_path ≠ []) as Hne by (unfold zip_path, path_join; by destruct (TEMP_DIR cfg)).
  destruct zip_path as [|c zp] eqn:Hzp; [done|]. rewrite <- Hzp in *.
  rewrite Hzip, Hentries in Hun. unfold extract_entries in Hun.
  change music_path with (work_dir ++ ["music.mp3"]) in Hmus |- *.
  rewrite (extract_each_file _ _ _ _ _ "music.mp3" _ _ Hun Hmus).
  by rewrite (overwritten_by_last _ _ _ _ Hlast).
Qed.

(** C10, an instance: an archive with one clip and its own [music.mp3]. *)
Lemma C10_archive_music_replaces_upload_witness :
  let E := Demo.installation Demo.always_up Demo.render false in
  let request := Demo.submission "PK:with-music" None in
  let r := process_video config E request Demo.boot in
  ∃ video_archive background_music x,
    form_video request = Some (FFile video_archive) ∧
    form_audio request = Some (FFile background_music) ∧
    fs (final r) !! ["temp"; "job-0"; "music.mp3"]
      = Some (FileN (content background_music) x) ∧
    background (final r)
      = background Demo.boot ++
        [Job "job-0" ["temp"; "job-0.zip"] ["temp"; "job-0"; "music.mp3"]
             (fade_of E request) ["temp"; "job-0"]] ∧
    ∀ entries unpacked m,
      unzip E (content video_archive) = Some entries →
      unpack E (fs (final r)) ["temp"; "job-0.zip"] ["temp"; "job-0"]
        = (unpacked, None) →
      last (filter (λ m, arcname (zname m) = ["music.mp3"]) entries) = Some m →
      unpacked !! ["temp"; "job-0"; "music.mp3"] = Some (FileN (zdata m) x).
Proof.
  intros E request.
  apply (C10_archive_music_replaces_upload config E request Demo.boot "job-0").
  vm_compute. reflexivity.
Defined.

(** The uploaded tune is staged at ingest and replaced during staging. *)
Example uploaded_tune_replaced :
  let E := Demo.installation Demo.always_up Demo.render false in
  let r := process_video config E (Demo.submission "PK:with-music" None) Demo.boot in
  fs (final r) !! ["temp"; "job-0"; "music.mp3"] = Some (FileN "tune" false) ∧
  (unpack E (fs (final r)) ["temp"; "job-0.zip"] ["temp"; "job-0"]).1
    !! ["temp"; "job-0"; "music.mp3"] = Some (FileN "another tune" false).
Proof. vm_compute. by split. Qed.

(** * Further properties of app.py *)

(** ** verify_api_key *)

(** Access is granted exactly when no key is configured or the header
    carries the configured key; otherwise a missing or empty header is a
    401 and any other value a 403. *)
Theorem verify_api_key_grants (cfg : Settings) (api_key : option string) :
  (verify_api_key cfg api_key = Served true ↔
     API_KEY cfg = "" ∨ api_key = Some (API_KEY cfg)) ∧
  (∀ code detail, verify_api_key cfg api_key = Refused code detail →
     API_KEY cfg ≠ "" ∧
     ((code = 401 ∧ (api_key = None ∨ api_key = Some "")) ∨
      (code = 403 ∧ ∃ key, api_key = Some key ∧ key ≠ "" ∧ key ≠ API_KEY cfg))).
Proof.
  unfold verify_api_key.
  destruct (bool_decide (API_KEY cfg = "")) eqn:Hc.
  { apply bool_decide_eq_true in Hc. split; [split; [by left|done]|done]. }
  apply bool_decide_eq_false in Hc.
  destruct api_key as [[|a key]|].
  - split; [|intros code detail [= <- <-]; by auto].
    split; [done|]. intros [?|[= Hk]]; [done|]. by rewrite <- Hk in Hc.
  - destruct (bool_decide (String a key ≠ API_KEY cfg)) eqn:Hk.
    + apply bool_decide_eq_true in Hk. split.
      * split; [done|]. intros [?|[= Hk']]; [done|]. by rewrite Hk' in Hk.
      * intros code detail [= <- <-]. split; [done|]. right. split; [done|].
        by exists (String a key).
    + apply bool_decide_eq_false in Hk. apply dec_stable in Hk.
      split; [|done]. split; [|done]. intros _. right. by rewrite Hk.
  - split; [|intros code detail [= <- <-]; by auto].
    split; [done|]. by intros [?|[=]].
Qed.

(** ** startup_event *)

Lemma fs_op_run op w :
  fs_op op w = Run (match (op (fs w)).2 with None => Done tt | Some e => Raised e end)
                   (with_fs (op (fs w)).1 w) [].
Proof. done. Qed.

(** A start that does not raise leaves both directories in place and keeps
    every file and directory that was there. *)
Theorem startup_makes_directories (cfg : Settings) (w : world) :
  let r := startup_event cfg w in
  result r = Done tt →
  isdir (fs (final r)) (TEMP_DIR cfg) = true ∧
  isdir (fs (final r)) (OUTPUT_DIR cfg) = true ∧
  (∀ q n, fs w !! q = Some n → fs (final r) !! q = Some n) ∧
  redis (final r) = redis w ∧ emitted r = [].
Proof.
  intros r. subst r. unfold startup_event. rewrite bind_fs_op.
  destruct (makedirs (fs w) (TEMP_DIR cfg)) as [f1 [e1|]] eqn:H1; world_simpl; [done|].
  rewrite fs_op_run. world_simpl.
  destruct (makedirs f1 (OUTPUT_DIR cfg)) as [f2 [e2|]] eqn:H2; world_simpl; [done|].
  intros _. split_and!; [|by eapply makedirs_ok| |done..].
  - pose proof (makedirs_ok _ _ _ H1) as Hd. unfold isdir, lookup_path in *.
    destruct (TEMP_DIR cfg) as [|c p]; [done|].
    destruct (f1 !! (c :: p)) as [[|]|] eqn:Hl; try done.
    by rewrite (makedirs_keeps _ _ _ _ _ _ H2 Hl).
  - intros q n Hq. eapply makedirs_keeps; [done|]. by eapply makedirs_keeps.
Qed.

Lemma startup_makes_directories_witness :
  let r := startup_event config (World ∅ ∅ 0 0 0 []) in
  isdir (fs (final r)) (TEMP_DIR config) = true ∧
  isdir (fs (final r)) (OUTPUT_DIR config) = true ∧
  (∀ q n, (∅ : gmap path node) !! q = Some n → fs (final r) !! q = Some n) ∧
  redis (final r) = ∅ ∧ emitted r = [].
Proof.
  apply (startup_makes_directories config (World ∅ ∅ 0 0 0 [])).
  vm_compute. reflexivity.
Defined.

(** ** health_check *)

(** The probe never raises, whatever Redis does: it reports [ok] for Redis
    exactly when the PING got through, tells whether the script is on disk,
    and changes neither files nor records. *)
Theorem health_check_never_fails (cfg : Settings) (E : env) (w : world) :
  let r := health_check cfg E w in
  ∃ h, result r = Done h ∧
       health_status h = "ok" ∧
       health_redis h = (if redis_up E (redis_calls w) then "ok" else "error") ∧
       health_script_exists h = path_exists (fs w) (SCRIPT_PATH cfg) ∧
       fs (final r) = fs w ∧ redis (final r) = redis w ∧ emitted r = [].
Proof.
  intros r. subst r.
  unfold health_check, bind, try_except, redis_ping, os_path_exists, ret.
  world_simpl. destruct (redis_up E (redis_calls w)); world_simpl; by eexists.
Qed.

(** ** delete_file_after_delay *)

(** The deferred deletion never raises and touches nothing but the one
    path: a regular file whose removal the system lets through is gone
    afterwards, every other path is as before, and so are the records. *)
Theorem delete_file_after_delay_removes (E : env)
    (file_path : path) (task_id : string) (hours : Z) (w : world) :
  let r := delete_file_after_delay E file_path task_id hours w in
  result r = Done tt ∧
  clock (final r) = clock w + Z.max 0 (hours * 3600) ∧
  redis (final r) = redis w ∧
  (∀ q, q ≠ file_path → fs (final r) !! q = fs w !! q) ∧
  (isfile (fs w) file_path = true → remove_denied E (fs w) file_path = false →
   path_exists (fs (final r)) file_path = false).
Proof.
  intros r. subst r.
  unfold delete_file_after_delay, try_except, bind, sleep, os_path_exists, os_remove, ret.
  world_simpl.
  destruct (path_exists (fs w) file_path) eqn:Hex; world_simpl.
  - unfold remove. destruct (isfile (fs w) file_path) eqn:Hf; cbn [negb]; world_simpl.
    + destruct (remove_denied E (fs w) file_path); world_simpl.
      * split_and!; try done.
      * split_and!; try done.
        -- intros q Hq. by rewrite lookup_delete_ne.
        -- intros _ _. unfold path_exists, lookup_path.
           destruct file_path; [done|]. by rewrite lookup_delete_eq.
    + split_and!; try done.
  - split_and!; try done.
    all: intros Hf; unfold isfile, path_exists in *;
      by destruct (lookup_path (fs w) file_path) as [[]|].
Qed.

(** ** process_video_task: what a finished run leaves behind *)

Section Verdict.

Variables (cfg : Settings) (E : env) (task_id : string).

Lemma ends_terminal_bind {A} (m : M A) (k : A → M unit) :
  (∀ a, ends_terminal cfg task_id (k a)) → ends_terminal cfg task_id (bind m k).
Proof.
  intros Hk w. unfold bind. destruct (result (m w)) as [a|e]; world_simpl; [|done].
  apply Hk.
Qed.

Lemma ends_terminal_save status kwargs :
  kwargs !! "status" = None →
  terminal (task_record task_id status 0 ∅) = true →
  ends_terminal cfg task_id (save_task_status cfg E task_id status kwargs).
Proof.
  intros Hk Ht w Hres.
  destruct (save_task_status_cases cfg E task_id status kwargs w)
    as (_ & _ & _ & _ & [(_ & _ & Hst)|(e & b & He & _)]); [|congruence].
  eexists. split; [done|].
  unfold terminal, status_is in *.
  rewrite task_record_status in * by done. done.
Qed.

Lemma ends_terminal_finalize work_dir result_path :
  ends_terminal cfg task_id (finalize cfg E task_id work_dir result_path).
Proof.
  unfold finalize. do 5 (apply ends_terminal_bind; intros ?).
  intros w.
  match goal with |- context [save_task_status _ _ _ _ ?k] =>
    pose proof (save_task_status_cases cfg E task_id "success" k w) as Hc;
    cbv zeta in Hc;
    destruct (save_task_status cfg E task_id "success" k w) as [r w' ev] eqn:Hs
  end.
  world_simpl in Hc.
  destruct Hc as (_ & _ & _ & _ & [(-> & -> & Hst)|(e & b & -> & -> & Hn)]).
  - rewrite (bind_done _ _ _ _ _ _ Hs). world_simpl. intros _.
    assert (final (bind (send_webhook_notification cfg _)
                        (λ _, create_task_delete
                                (path_join (OUTPUT_DIR cfg) (task_id +:+ ".mp4"))
                                task_id (FILE_RETENTION_HOURS cfg)) w') = w') as ->.
    { unfold bind, send_webhook_notification, create_task_delete, emit, ret.
      by destruct (bool_decide _). }
    eexists. split; [done|]. unfold terminal, status_is.
    by rewrite task_record_status.
  - by rewrite (bind_raised _ _ _ _ _ _ Hs).
Qed.

Lemma ends_terminal_execute music_path fade_duration work_dir num_files :
  ends_terminal cfg task_id
    (execute cfg E task_id music_path fade_duration work_dir num_files).
Proof.
  unfold execute. cbv zeta.
  apply ends_terminal_bind; intros script_there.
  destruct script_there; cbn [negb]; [|by apply ends_terminal_save].
  apply ends_terminal_bind; intros runnable.
  destruct runnable; cbn [negb]; [|by apply ends_terminal_save].
  apply ends_terminal_bind; intros [[returncode stdout] stderr].
  do 2 (apply ends_terminal_bind; intros _).
  destruct (returncode =? 0); cbn [negb].
  - apply ends_terminal_bind; intros result_there.
    destruct result_there; cbn [negb]; [apply ends_terminal_finalize|].
    apply ends_terminal_bind; intros files. by apply ends_terminal_save.
  - apply ends_terminal_bind; intros error_msg. by apply ends_terminal_save.
Qed.

Lemma ends_terminal_process_body zip_path music_path fade_duration work_dir :
  ends_terminal cfg task_id
    (process_body cfg E task_id zip_path music_path fade_duration work_dir).
Proof.
  unfold process_body.
  apply ends_terminal_bind; intros _.
  apply ends_terminal_bind; intros zip_there.
  destruct zip_there; cbn [negb]; [|by apply ends_terminal_save].
  apply ends_terminal_bind; intros [e|]; [by apply ends_terminal_save|].
  apply ends_terminal_bind; intros all_files.
  destruct (bool_decide _); [by apply ends_terminal_save|].
  apply ends_terminal_bind; intros music_there.
  destruct music_there; cbn [negb]; [|by apply ends_terminal_save].
  apply ends_terminal_bind; intros _.
  apply ends_terminal_execute.
Qed.

End Verdict.

(** A run that returns leaves [success] or [failed] stored under the job's
    key, never [pending] or [processing]; with a Redis that takes every
    command every run returns. *)
Theorem finished_run_has_terminal_status (cfg : Settings) (E : env)
    (task_id : string) (zip_path music_path : path) (fade_duration : Z)
    (work_dir : path) (w : world) :
  let r := process_video_task cfg E task_id zip_path music_path fade_duration
             work_dir w in
  (reliable E → result r = Done tt) ∧
  (result r = Done tt →
   ∃ v, stored (final r) (get_redis_key cfg task_id) = Some v ∧ terminal v = true).
Proof.
  intros r. split.
  { intros Hup.
    destruct (run_events cfg E task_id zip_path music_path fade_duration work_dir w)
      as (rb & bev & hev & rest & _ & _ & _ & [(_ & _ & Hres)|(_ & v & b & _ & _ & Hb)]);
      [done|]. by destruct (Hb Hup). }
  subst r. unfold process_video_task, try_finally, try_except.
  pose proof (ends_terminal_process_body cfg E task_id zip_path music_path
                fade_duration work_dir w) as Hbody.
  destruct (process_body cfg E task_id zip_path music_path fade_duration work_dir w)
    as [rb wb bev].
  world_simpl in Hbody. destruct rb as [[]|e]; world_simpl.
  - destruct (cleanup_spec E task_id zip_path work_dir wb) as (-> & Hredis & _).
    intros _. unfold stored. rewrite Hredis. by apply Hbody.
  - pose proof (ends_terminal_save cfg E task_id "failed"
                  (kw [("error", JStr e);
                       ("details", JStr ("Traceback (most recent call last): " +:+ e))])
                  eq_refl eq_refl wb) as Hh.
    unfold on_exception.
    destruct (save_task_status cfg E task_id "failed" _ wb) as [rh wh hev].
    world_simpl in Hh. world_simpl.
    destruct (cleanup_spec E task_id zip_path work_dir wh) as (-> & Hredis & _).
    intros Hres. unfold stored. rewrite Hredis. by apply Hh.
Qed.
